(** * ComponentBuilder: keeping a Component tree in step with a ValueTree

    A shallow embedding of [juce_ComponentBuilder.cpp].  Pointers to
    components are modelled by values that carry their address ([ptr]);
    the state tree is a handle on a shared object together with the
    chain of its parents.  [jassert] is modelled by a flag: execution
    goes on as in a release build, and the flag tells that a debug
    build would have stopped. *)

From Stdlib Require Import String List Bool Arith ZArith Lia Permutation.
Import ListNotations.
Set Warnings "-register-all".
Open Scope string_scope.
Open Scope list_scope.

(** ** The state tree *)

(** The data a ValueTree handle refers to: type, named properties (each
    value held as its [toString()]), ordered children. *)
Inductive SharedObject : Type :=
  mkObject (objType : string)
           (objProperties : list (string * string))
           (objChildren : list SharedObject).

(** A ValueTree handle: the invalid tree, or an object with the handle
    of its parent. *)
Inductive ValueTree : Type :=
| invalid
| validTree (object : SharedObject) (parentTree : ValueTree).

Definition objType (o : SharedObject) : string :=
  match o with mkObject t _ _ => t end.

Definition objProperties (o : SharedObject) : list (string * string) :=
  match o with mkObject _ p _ => p end.

Definition objChildren (o : SharedObject) : list SharedObject :=
  match o with mkObject _ _ c => c end.

Definition isValid (v : ValueTree) : bool :=
  match v with invalid => false | validTree _ _ => true end.

Definition getType (v : ValueTree) : string :=
  match v with invalid => "" | validTree o _ => objType o end.


Definition getNumChildren (v : ValueTree) : nat :=
  match v with invalid => 0 | validTree o _ => length (objChildren o) end.

Definition getChild (v : ValueTree) (index : nat) : ValueTree :=
  match v with
  | invalid => invalid
  | validTree o _ =>
      match nth_error (objChildren o) index with
      | Some c => validTree c v
      | None => invalid
      end
  end.

(** [state [name].toString()]: the first property of that name, the
    empty string when there is none. *)
Fixpoint lookupProperty (props : list (string * string)) (name : string) : string :=
  match props with
  | [] => ""
  | (k, v) :: rest => if String.eqb k name then v else lookupProperty rest name
  end.

Definition getProperty (v : ValueTree) (name : string) : string :=
  match v with invalid => "" | validTree o _ => lookupProperty (objProperties o) name end.

(** ** Components *)

Inductive Component : Type :=
  mkComponent (ptr : nat) (componentID : string) (childComponentList : list Component).

Definition ptr (c : Component) : nat :=
  match c with mkComponent p _ _ => p end.

Definition getComponentID (c : Component) : string :=
  match c with mkComponent _ i _ => i end.

Definition childComponentList (c : Component) : list Component :=
  match c with mkComponent _ _ l => l end.

Definition setComponentID (c : Component) (newID : string) : Component :=
  mkComponent (ptr c) newID (childComponentList c).

Definition setChildComponentList (c : Component) (l : list Component) : Component :=
  mkComponent (ptr c) (getComponentID c) l.

Definition getNumChildComponents (c : Component) : nat :=
  length (childComponentList c).

Definition isNotEmpty (s : string) : bool := negb (String.eqb s "").

Definition ptrs (l : list Component) : list nat := map ptr l.

Definition hasPtr (p : nat) (c : Component) : bool := Nat.eqb (ptr c) p.

Definition memPtr (p : nat) (l : list Component) : bool := existsb (hasPtr p) l.

(** ** Type handlers *)

(** [TypeHandler] is abstract in the source.  A handler is given by the
    type it claims and by what a component it has just constructed
    looks like: the ID its constructor leaves and the children it
    builds. *)
Record TypeHandler : Type := mkTypeHandler {
  valueTreeType : string;
  initialID : ValueTree -> string;
  initialChildren : ValueTree -> list Component
}.

(** Modelled from the spec: [TypeHandler::addNewComponentFromState] is
    pure virtual and its implementations are not in this file.  By the
    contract of 4.2 it returns a new, fully constructed instance whose
    parent is the supplied parent: the instance is allocated at the
    free address and, when a parent is given, becomes the last of the
    parent's children.  The result is the instance, the parent and the
    next free address. *)
Definition addNewComponentFromState (type : TypeHandler) (state : ValueTree)
    (parent : option Component) (freePtr : nat)
  : Component * option Component * nat :=
  let c := mkComponent freePtr (initialID type state) (initialChildren type state) in
  (c,
   option_map (fun p => setChildComponentList p (childComponentList p ++ [c])) parent,
   S freePtr).

(** One call of [updateComponentFromState], which is pure virtual as
    well: the handler, the component it is given and the state. *)
Record UpdateCall : Type := mkUpdateCall {
  callType : TypeHandler;
  callComponent : Component;
  callState : ValueTree
}.

(** ** ComponentBuilderHelpers *)

Definition idProperty : string := "id".

Definition getStateId (state : ValueTree) : string :=
  getProperty state idProperty.

(** The OwnedArray overload: the array is scanned from its last index
    down to 0; the component found is taken out of the array. *)
Fixpoint findComponentWithID_array (components : list Component) (compId : string)
  : option Component * list Component :=
  match components with
  | [] => (None, [])
  | c :: rest =>
      match findComponentWithID_array rest compId with
      | (Some found, rest') => (Some found, c :: rest')
      | (None, _) =>
          if String.eqb (getComponentID c) compId
          then (Some c, rest)
          else (None, c :: rest)
      end
  end.

(** The Component overload: [c] itself, then its children from the last
    index down to 0, each searched in the same way. *)
Fixpoint findComponentWithID (c : Component) (compId : string) : option Component :=
  match c with
  | mkComponent _ cid children =>
      if String.eqb cid compId then Some c
      else
        (fix scan (l : list Component) : option Component :=
           match l with
           | [] => None
           | child :: rest =>
               match scan rest with
               | Some found => Some found
               | None => findComponentWithID child compId
               end
           end) children
  end.

(** A write to the object [c] points to, seen through a list that
    holds this pointer. *)
Definition storeComponent (c : Component) (l : list Component) : list Component :=
  map (fun x => if hasPtr (ptr c) x then c else x) l.

(** The handler has already put the new component among its parent's
    children when the ID is set on it. *)
Definition createNewComponent (type : TypeHandler) (state : ValueTree)
    (parent : option Component) (freePtr : nat)
  : Component * option Component * nat :=
  let '(c, parent1, freePtr1) := addNewComponentFromState type state parent freePtr in
  let c' := setComponentID c (getStateId state) in
  (c',
   option_map (fun p => setChildComponentList p (storeComponent c' (childComponentList p)))
              parent1,
   freePtr1).

(** ** ComponentBuilder *)

(** [freePtr] is the next address at which a component can be
    allocated. *)
Record ComponentBuilder : Type := mkBuilder {
  state : ValueTree;
  types : list TypeHandler;
  component : option Component;
  freePtr : nat
}.

Fixpoint firstHandlerOfType (ts : list TypeHandler) (targetType : string)
  : option TypeHandler :=
  match ts with
  | [] => None
  | t :: rest =>
      if String.eqb (valueTreeType t) targetType then Some t
      else firstHandlerOfType rest targetType
  end.

Definition getHandlerForState (b : ComponentBuilder) (s : ValueTree) : option TypeHandler :=
  firstHandlerOfType (types b) (getType s).

Definition getNumHandlers (b : ComponentBuilder) : nat := length (types b).

(** The root is made by the handler of the builder's state, without a
    parent; without such a handler there is no component.  The flag
    tells that one of the two assertions failed: that some type is
    registered, and that a handler was found. *)
Definition createComponent (b : ComponentBuilder) : option Component * nat * bool :=
  let noTypes := negb (0 <? length (types b))%nat in
  match getHandlerForState b (state b) with
  | Some type =>
      let '(c, _, freePtr1) := createNewComponent type (state b) None (freePtr b) in
      (Some c, freePtr1, noTypes)
  | None => (None, freePtr b, true)
  end.

(** The component is constructed on the first access and kept; what is
    returned is the component, which the callers test against null. *)
Definition getManagedComponent (b : ComponentBuilder) : option Component * ComponentBuilder :=
  match component b with
  | None =>
      let '(c, freePtr1, _) := createComponent b in
      (c, mkBuilder (state b) (types b) c freePtr1)
  | Some c => (Some c, b)
  end.

(** [updateComponent]: the result is the builder and the calls of
    [updateComponentFromState] that were made.  What a handler does to
    the component it is given is the handler's own business and is not
    in this file; the call is recorded with its arguments. *)
Fixpoint updateComponent (builder : ComponentBuilder) (tree : ValueTree)
  : ComponentBuilder * list UpdateCall :=
  let '(topLevelComp, builder1) := getManagedComponent builder in
  match topLevelComp with
  | None => (builder1, [])
  | Some top =>
      let type := getHandlerForState builder1 tree in
      let uid := getStateId tree in
      let viaParent :=
        match tree with
        | invalid => (builder1, [])
        | validTree _ parent =>
            if isValid parent then updateComponent builder1 parent else (builder1, [])
        end in
      match type with
      | None => viaParent
      | Some t =>
          if String.eqb uid "" then viaParent
          else
            match findComponentWithID top uid with
            | Some changedComp => (builder1, [mkUpdateCall t changedComp tree])
            | None => (builder1, [])
            end
      end
  end.

(** The five listener callbacks. *)
Definition valueTreePropertyChanged (b : ComponentBuilder) (tree : ValueTree)
    (property : string) := updateComponent b tree.

Definition valueTreeChildAdded (b : ComponentBuilder) (tree child : ValueTree) :=
  updateComponent b tree.

Definition valueTreeChildRemoved (b : ComponentBuilder) (tree child : ValueTree) :=
  updateComponent b tree.

Definition valueTreeChildOrderChanged (b : ComponentBuilder) (tree : ValueTree) :=
  updateComponent b tree.

Definition valueTreeParentChanged (b : ComponentBuilder) (tree : ValueTree) :=
  updateComponent b tree.

(** ** Z-order of siblings

    Index 0 of a child list is the component at the back; the last
    index is the topmost one. *)

Fixpoint removePtr (p : nat) (l : list Component) : list Component :=
  match l with
  | [] => []
  | x :: rest => if hasPtr p x then rest else x :: removePtr p rest
  end.

Fixpoint findPtr (p : nat) (l : list Component) : option Component :=
  match l with
  | [] => None
  | x :: rest => if hasPtr p x then Some x else findPtr p rest
  end.

Fixpoint insertBehind (other : nat) (c : Component) (l : list Component) : list Component :=
  match l with
  | [] => []
  | x :: rest => if hasPtr other x then c :: x :: rest else x :: insertBehind other c rest
  end.

(** Modelled from the spec: [Component::toFront] is declared in
    juce_Component.h and defined outside this file.  The component is
    promoted to the topmost position among the children of its parent
    (6e); a component that is not in the list leaves it as it is. *)
Definition toFront (childList : list Component) (c : Component) : list Component :=
  match findPtr (ptr c) childList with
  | Some x => removePtr (ptr c) childList ++ [x]
  | None => childList
  end.

(** Modelled from the spec: [Component::toBehind] is defined outside
    this file as well.  The component is placed immediately behind
    [other] (6e); nothing moves when the two are the same component or
    when one of them is not in the list. *)
Definition toBehind (childList : list Component) (c other : Component) : list Component :=
  if Nat.eqb (ptr c) (ptr other) then childList
  else
    match findPtr (ptr c) childList with
    | Some x =>
        if memPtr (ptr other) childList
        then insertBehind (ptr other) x (removePtr (ptr c) childList)
        else childList
    | None => childList
    end.

(** Modelled from the spec: the destructor of [Component] is outside
    this file.  Disposal makes the parent release the instance (6d):
    the deleted components leave the child list. *)
Definition deleteComponents (pool childList : list Component) : list Component :=
  filter (fun x => negb (memPtr (ptr x) pool)) childList.

(** ** Child-list reconciliation *)

Record PassState : Type := mkPass {
  passParent : Component;
  existingComponents : list Component;
  componentsInOrder : list Component;
  passFreePtr : nat;
  passCreated : list Component;
  passAsserted : bool
}.

(** What a pass leaves: the parent, the ordered array, the components
    that were constructed and those that were deleted, the next free
    address, and whether a [jassert] failed. *)
Record PassResult : Type := mkResult {
  resParent : Component;
  resInOrder : list Component;
  resCreated : list Component;
  resDeleted : list Component;
  resFreePtr : nat;
  resAsserted : bool
}.

(** The body of the loop over the children of the state.  The two
    assertions are the one on the handler and the one on the ID in the
    lookup; the pool that the lookup leaves is the one the loop goes on
    with. *)
Definition reconcileChild (b : ComponentBuilder) (st : PassState) (childState : ValueTree)
  : PassState :=
  match getHandlerForState b childState with
  | None =>
      mkPass (passParent st) (existingComponents st) (componentsInOrder st)
             (passFreePtr st) (passCreated st) true
  | Some type =>
      let uid := getStateId childState in
      let asserted := passAsserted st || negb (isNotEmpty uid) in
      match findComponentWithID_array (existingComponents st) uid with
      | (Some c, pool) =>
          mkPass (passParent st) pool (componentsInOrder st ++ [c])
                 (passFreePtr st) (passCreated st) asserted
      | (None, pool) =>
          let '(c, parent1, freePtr1) :=
            createNewComponent type childState (Some (passParent st)) (passFreePtr st) in
          mkPass (match parent1 with Some p => p | None => passParent st end)
                 pool (componentsInOrder st ++ [c])
                 freePtr1 (passCreated st ++ [c]) asserted
      end
  end.

(** The loop that makes the z-order right, from the index before the
    last one down to 0. *)
Fixpoint toBehindLoop (childList : list Component) (order : list Component)
  : list Component :=
  match order with
  | [] => childList
  | c :: rest =>
      match rest with
      | [] => childList
      | next :: _ => toBehind (toBehindLoop childList rest) c next
      end
  end.

(** The last component of the array goes to the front, then the loop
    runs; nothing is done for an empty array. *)
Definition fixZOrder (childList order : list Component) : list Component :=
  match order with
  | [] => childList
  | _ :: _ => toBehindLoop (toFront childList (last order (mkComponent 0 "" []))) order
  end.

(** The pool is filled with the children of the parent, the loop runs
    over the children of the state, what is left in the pool is
    deleted when the pool goes out of scope, and the z-order is set. *)
Definition updateChildComponents (b : ComponentBuilder) (parent : Component)
    (children : ValueTree) : PassResult :=
  let numExistingChildComps := getNumChildComponents parent in
  let existing :=
    flat_map (fun i => match nth_error (childComponentList parent) i with
                       | Some c => [c]
                       | None => []
                       end)
             (seq 0 numExistingChildComps) in
  let newNumChildren := getNumChildren children in
  let st :=
    fold_left (fun st i => reconcileChild b st (getChild children i))
              (seq 0 newNumChildren)
              (mkPass parent existing [] (freePtr b) [] false) in
  let remaining := deleteComponents (existingComponents st)
                                    (childComponentList (passParent st)) in
  mkResult (setChildComponentList (passParent st)
                                  (fixZOrder remaining (componentsInOrder st)))
           (componentsInOrder st)
           (passCreated st)
           (existingComponents st)
           (passFreePtr st)
           (passAsserted st).

(** ** Auxiliary notions for the properties *)

(** [x] is none of the components of [order]. *)
Definition outside (order : list Component) (x : Component) : bool :=
  negb (memPtr (ptr x) order).

(** The children of a state, as the loop meets them, and the loop as a
    fold over them. *)
Definition childStates (children : ValueTree) : list ValueTree :=
  map (getChild children) (seq 0 (getNumChildren children)).

Definition hasHandler (b : ComponentBuilder) (s : ValueTree) : bool :=
  match getHandlerForState b s with Some _ => true | None => false end.

Definition reconcileAll (b : ComponentBuilder) (states : list ValueTree) (st : PassState)
  : PassState :=
  fold_left (reconcileChild b) states st.

(** What the loop keeps true, and the three ways its body can go. *)
Record PassInv (st : PassState) : Prop := mkPassInv {
  inv_perm : Permutation (childComponentList (passParent st))
                         (existingComponents st ++ componentsInOrder st);
  inv_nodup : NoDup (ptrs (childComponentList (passParent st)));
  inv_fresh : forall x, In x (childComponentList (passParent st)) ->
                        ptr x < passFreePtr st
}.

Inductive StepCase (b : ComponentBuilder) (st : PassState) (childState : ValueTree)
  : PassState -> Prop :=
| step_skip :
    getHandlerForState b childState = None ->
    StepCase b st childState
      (mkPass (passParent st) (existingComponents st) (componentsInOrder st)
              (passFreePtr st) (passCreated st) true)
| step_claim type c l1 l2 :
    getHandlerForState b childState = Some type ->
    existingComponents st = l1 ++ c :: l2 ->
    getComponentID c = getStateId childState ->
    Forall (fun x => getComponentID x <> getStateId childState) l2 ->
    StepCase b st childState
      (mkPass (passParent st) (l1 ++ l2) (componentsInOrder st ++ [c])
              (passFreePtr st) (passCreated st)
              (passAsserted st || negb (isNotEmpty (getStateId childState))))
| step_create type :
    getHandlerForState b childState = Some type ->
    Forall (fun x => getComponentID x <> getStateId childState) (existingComponents st) ->
    let c := mkComponent (passFreePtr st) (getStateId childState)
                         (initialChildren type childState) in
    StepCase b st childState
      (mkPass (setChildComponentList (passParent st)
                                     (childComponentList (passParent st) ++ [c]))
              (existingComponents st) (componentsInOrder st ++ [c])
              (S (passFreePtr st)) (passCreated st ++ [c])
              (passAsserted st || negb (isNotEmpty (getStateId childState)))).

(** The children of [parent] are distinct objects, allocated below the
    free address of the builder. *)
Definition childrenAllocated (b : ComponentBuilder) (parent : Component) : Prop :=
  NoDup (ptrs (childComponentList parent)) /\
  forall x, In x (childComponentList parent) -> ptr x < freePtr b.

(** The builder once a pass has allocated its components. *)
Definition afterPass (b : ComponentBuilder) (r : PassResult) : ComponentBuilder :=
  mkBuilder (state b) (types b) (component b) (resFreePtr r).

(** ** A concrete scene

    A panel with buttons, as in the scenario of the specification. *)

Definition panelHandler : TypeHandler :=
  mkTypeHandler "panel" (fun _ => "") (fun _ => []).

Definition buttonHandler : TypeHandler :=
  mkTypeHandler "button" (fun _ => "unnamed") (fun _ => []).

Definition buttonA : SharedObject := mkObject "button" [("id", "a")] [].
Definition buttonB : SharedObject := mkObject "button" [("id", "b")] [].
Definition buttonC : SharedObject := mkObject "button" [("id", "c")] [].
Definition sliderS : SharedObject := mkObject "slider" [("id", "s")] [].

Definition panelOf (kids : list SharedObject) : ValueTree :=
  validTree (mkObject "panel" [("id", "root")] kids) invalid.

Definition compA : Component := mkComponent 2 "a" [].
Definition compB : Component := mkComponent 3 "b" [].
Definition compS : Component := mkComponent 4 "s" [].

Definition rootOf (kids : list Component) : Component := mkComponent 1 "root" kids.

Definition builderOf (kids : list SharedObject) (root : option Component) (free : nat)
  : ComponentBuilder :=
  mkBuilder (panelOf kids) [panelHandler; buttonHandler] root free.

Definition sceneRoot : Component := rootOf [compB; compA].

Definition sceneBuilder : ComponentBuilder :=
  builderOf [buttonC; buttonA; buttonB] (Some sceneRoot) 5.

Definition settledBuilder : ComponentBuilder :=
  builderOf [buttonB; buttonA] (Some sceneRoot) 5.

(** A root with a button and a slider, for a state whose slider has no
    handler. *)
Definition mixedRoot : Component := rootOf [compA; compS].

Definition mixedBuilder : ComponentBuilder :=
  builderOf [buttonA; sliderS] (Some mixedRoot) 5.

(** Two siblings that share an ID. *)
Definition twinBack : Component := mkComponent 2 "x" [].
Definition twinTop : Component := mkComponent 3 "x" [].
Definition twinPool : list Component := [twinBack; twinTop].
Definition twinRoot : Component := rootOf twinPool.

(** ** Search orders, as the specification words them *)

Definition hasID (compId : string) (c : Component) : bool :=
  String.eqb (getComponentID c) compId.

(** The order the specification gives for the search in the tree: the
    root, then its children in their current order, recursively. *)
Fixpoint visitInChildOrder (c : Component) : list Component :=
  match c with
  | mkComponent _ _ children => c :: flat_map visitInChildOrder children
  end.

(** The same walk with the children taken from the last index down to
    index 0. *)
Fixpoint visitFromTopmost (c : Component) : list Component :=
  match c with
  | mkComponent _ _ children =>
      c :: (fix downFrom (l : list Component) : list Component :=
              match l with
              | [] => []
              | child :: rest => downFrom rest ++ visitFromTopmost child
              end) children
  end.

(** Induction on a component with the property known for its children. *)
Fixpoint Component_children_ind (P : Component -> Prop)
    (step : forall p i children, Forall P children -> P (mkComponent p i children))
    (c : Component) : P c :=
  match c with
  | mkComponent p i children =>
      step p i children
           ((fix all (l : list Component) : Forall P l :=
               match l with
               | [] => Forall_nil P
               | x :: rest => Forall_cons x (Component_children_ind P step x) (all rest)
               end) children)
  end.

(** ** The walk to the node that can be addressed, as the specification
    words it *)

Fixpoint ancestorsOrSelf (tree : ValueTree) : list ValueTree :=
  match tree with
  | invalid => []
  | validTree _ parent => tree :: ancestorsOrSelf parent
  end.

(** A node with both a matching handler and a non-empty identifier. *)
Definition addressable (b : ComponentBuilder) (s : ValueTree) : bool :=
  hasHandler b s && isNotEmpty (getStateId s).

(** The nearest ancestor-or-self of the node that is addressable. *)
Definition resolveTarget (b : ComponentBuilder) (tree : ValueTree) : option ValueTree :=
  find (addressable b) (ancestorsOrSelf tree).

(** The calls of [updateComponentFromState] the specification asks for,
    with [top] the managed component. *)
Definition updateCalls (b : ComponentBuilder) (top : Component) (tree : ValueTree)
  : list UpdateCall :=
  match resolveTarget b tree with
  | None => []
  | Some target =>
      match getHandlerForState b target, findComponentWithID top (getStateId target) with
      | Some type, Some changedComp => [mkUpdateCall type changedComp target]
      | _, _ => []
      end
  end.

(** The five notifications of the listener interface. *)
Inductive Notification : Type :=
| PropertyChanged (tree : ValueTree) (property : string)
| ChildAdded (tree child : ValueTree)
| ChildRemoved (tree child : ValueTree)
| ChildOrderChanged (tree : ValueTree)
| ParentChanged (tree : ValueTree).

Definition deliver (b : ComponentBuilder) (n : Notification)
  : ComponentBuilder * list UpdateCall :=
  match n with
  | PropertyChanged tree property => valueTreePropertyChanged b tree property
  | ChildAdded tree child => valueTreeChildAdded b tree child
  | ChildRemoved tree child => valueTreeChildRemoved b tree child
  | ChildOrderChanged tree => valueTreeChildOrderChanged b tree
  | ParentChanged tree => valueTreeParentChanged b tree
  end.

Definition notifiedTree (n : Notification) : ValueTree :=
  match n with
  | PropertyChanged tree _ => tree
  | ChildAdded tree _ => tree
  | ChildRemoved tree _ => tree
  | ChildOrderChanged tree => tree
  | ParentChanged tree => tree
  end.

(** A builder whose root has not been asked for yet, one whose root has
    no children yet, and nodes of their state. *)
Definition lazyBuilder : ComponentBuilder := builderOf [buttonA; sliderS] None 1.

Definition bareRoot : Component := rootOf [].

Definition bareBuilder : ComponentBuilder := builderOf [buttonA; sliderS] (Some bareRoot) 2.

Definition nodeRoot : ValueTree := panelOf [buttonA; sliderS].
Definition nodeA : ValueTree := getChild nodeRoot 0.
Definition nodeS : ValueTree := getChild nodeRoot 1.

(** ** Registration of type handlers *)

(** A handler object as registration sees it: the handler and its
    [builder] pointer, the address of the builder that owns it. *)
Record HandlerObject : Type := mkHandlerObject {
  handlerOf : TypeHandler;
  builderPtr : option nat
}.

(** [registerTypeHandler] on the builder at address [this]: the handler
    is added at the end of [types] and bound to the builder.  The flag
    tells that the assertion on a handler that is already bound
    failed. *)
Definition registerTypeHandler (this : nat) (b : ComponentBuilder) (type : HandlerObject)
  : ComponentBuilder * HandlerObject * bool :=
  (mkBuilder (state b) (types b ++ [handlerOf type]) (component b) (freePtr b),
   mkHandlerObject (handlerOf type) (Some this),
   match builderPtr type with Some _ => true | None => false end).

(** [TypeHandler::getBuilder], with the flag of its assertion. *)
Definition getBuilder (type : HandlerObject) : option nat * bool :=
  (builderPtr type, match builderPtr type with Some _ => false | None => true end).

(** [getHandler]: [types [index]] gives no handler for an index that is
    negative or not below the size of the array. *)
Definition getHandler (b : ComponentBuilder) (index : Z) : option TypeHandler :=
  if ((0 <=? index)%Z && (index <? Z.of_nat (length (types b)))%Z)%bool
  then nth_error (types b) (Z.to_nat index)
  else None.

(** A handler for sliders, not registered in the scenes above. *)
Definition sliderHandler : TypeHandler :=
  mkTypeHandler "slider" (fun _ => "") (fun _ => []).

(** A builder without any handler and without root. *)
Definition emptyBuilder : ComponentBuilder := mkBuilder nodeRoot [] None 1.




(** A builder with handlers whose state is a slider, for which it has
    none. *)
Definition sliderRootBuilder : ComponentBuilder :=
  mkBuilder (validTree sliderS invalid) [panelHandler; buttonHandler] None 1.

(** A slider and a button with the same ID, and a parent whose child
    has this ID. *)
Definition sliderA : SharedObject := mkObject "slider" [("id", "a")] [].
Definition clashState : ValueTree := panelOf [sliderA; buttonA].
Definition clashRoot : Component := rootOf [compA].
Definition clashBuilder : ComponentBuilder :=
  builderOf [sliderA; buttonA] (Some clashRoot) 5.

(** * Properties *)

(** Closed side conditions of the concrete scenes. *)
Ltac solve_allocated :=
  split; [ repeat constructor; simpl; intuition discriminate
         | simpl; intros ? ?; repeat match goal with
             | H : _ \/ _ |- _ => destruct H
             | H : _ = _ |- _ => subst
             | H : False |- _ => contradiction
             end; simpl; lia ].

Ltac solve_handlers :=
  simpl; intros ? ?; repeat match goal with
    | H : _ \/ _ |- _ => destruct H
    | H : _ = _ |- _ => subst
    | H : False |- _ => contradiction
    end; discriminate.

(** ** Lists of components, looked at through their addresses *)

Section PtrLists.

Implicit Types (l cl order : list Component) (c x : Component) (p : nat).

Lemma hasPtr_true p x : hasPtr p x = true <-> ptr x = p.
Proof. unfold hasPtr. apply Nat.eqb_eq. Qed.

Lemma hasPtr_false p x : hasPtr p x = false <-> ptr x <> p.
Proof. unfold hasPtr. apply Nat.eqb_neq. Qed.

Lemma memPtr_true p l : memPtr p l = true <-> In p (ptrs l).
Proof.
  unfold memPtr, ptrs. rewrite existsb_exists, in_map_iff.
  split; intros [x [H1 H2]]; exists x.
  - apply hasPtr_true in H2. auto.
  - split; [assumption | now apply hasPtr_true].
Qed.

Lemma memPtr_false p l : memPtr p l = false <-> ~ In p (ptrs l).
Proof.
  rewrite <- memPtr_true. destruct (memPtr p l); split; intros; congruence.
Qed.

Lemma filter_perm (f : Component -> bool) l l' :
  Permutation l l' -> Permutation (filter f l) (filter f l').
Proof.
  induction 1 as [| x l l' _ IH | x y l | l l' l'' _ IH1 _ IH2]; simpl.
  - constructor.
  - destruct (f x); auto.
  - destruct (f x), (f y); auto. apply perm_swap.
  - now transitivity (filter f l').
Qed.

Lemma NoDup_ptrs_perm l l' :
  Permutation l l' -> NoDup (ptrs l) -> NoDup (ptrs l').
Proof.
  intros HP. apply Permutation_NoDup. now apply Permutation_map.
Qed.

Lemma NoDup_ptrs_filter (f : Component -> bool) l :
  NoDup (ptrs l) -> NoDup (ptrs (filter f l)).
Proof.
  unfold ptrs. induction l as [| x l IH]; simpl; intros H; [constructor |].
  inversion H as [| ? ? Hx Hl]; subst.
  destruct (f x); simpl; auto.
  constructor; auto.
  rewrite in_map_iff in *. intros [y [Hy1 Hy2]].
  apply filter_In in Hy2. apply Hx. exists y. tauto.
Qed.

(** With distinct addresses, the address finds the element itself. *)
Lemma findPtr_In l c : NoDup (ptrs l) -> In c l -> findPtr (ptr c) l = Some c.
Proof.
  induction l as [| x l IH]; simpl; intros HN HI; [contradiction |].
  inversion HN as [| ? ? Hx Hl]; subst.
  destruct HI as [-> | HI].
  - unfold hasPtr. now rewrite Nat.eqb_refl.
  - destruct (hasPtr (ptr c) x) eqn:E; [| auto].
    apply hasPtr_true in E. exfalso. apply Hx. rewrite E.
    now apply in_map.
Qed.

Lemma findPtr_app_l l l' p x :
  findPtr p l = Some x -> findPtr p (l ++ l') = Some x.
Proof.
  induction l as [| y l IH]; simpl; [discriminate |].
  destruct (hasPtr p y); auto.
Qed.

Lemma removePtr_filter l p :
  NoDup (ptrs l) -> removePtr p l = filter (fun x => negb (hasPtr p x)) l.
Proof.
  induction l as [| x l IH]; simpl; intros HN; [reflexivity |].
  inversion HN as [| ? ? Hx Hl]; subst.
  destruct (hasPtr p x) eqn:E; simpl.
  - apply hasPtr_true in E. subst p.
    symmetry. apply forallb_filter_id. apply forallb_forall.
    intros y Hy. destruct (hasPtr (ptr x) y) eqn:E'; [| reflexivity].
    apply hasPtr_true in E'. exfalso. apply Hx. rewrite <- E'. now apply in_map.
  - now rewrite IH.
Qed.

Lemma removePtr_app_l l l' p :
  In p (ptrs l) -> removePtr p (l ++ l') = removePtr p l ++ l'.
Proof.
  induction l as [| x l IH]; simpl; [contradiction |].
  intros [H | H].
  - apply hasPtr_true in H. now rewrite H.
  - destruct (hasPtr p x); [reflexivity |]. simpl. now rewrite IH.
Qed.

Lemma insertBehind_app l l' x y :
  ~ In (ptr y) (ptrs l) ->
  insertBehind (ptr y) x (l ++ y :: l') = l ++ x :: y :: l'.
Proof.
  induction l as [| z l IH]; simpl; intros H.
  - unfold hasPtr. now rewrite Nat.eqb_refl.
  - destruct (hasPtr (ptr y) z) eqn:E.
    + apply hasPtr_true in E. exfalso. apply H. now left.
    + rewrite IH; [reflexivity |]. intros H'. apply H. now right.
Qed.

Lemma toFront_last cl c :
  NoDup (ptrs cl) -> In c cl ->
  toFront cl c = filter (fun x => negb (hasPtr (ptr c) x)) cl ++ [c].
Proof.
  intros HN HI. unfold toFront.
  rewrite (findPtr_In _ _ HN HI). now rewrite removePtr_filter.
Qed.

Lemma toFront_perm cl c : NoDup (ptrs cl) -> Permutation cl (toFront cl c).
Proof.
  intros HN. unfold toFront.
  destruct (findPtr (ptr c) cl) as [x |] eqn:E; [| reflexivity].
  clear HN. revert E. induction cl as [| y cl IH]; simpl; [discriminate |].
  destruct (hasPtr (ptr c) y).
  - intros [= ->]. apply Permutation_cons_append.
  - intros E. simpl. apply perm_skip. auto.
Qed.

End PtrLists.

(** ** The z-order loop *)

Section ZOrder.

Implicit Types (l cl order : list Component) (c x : Component).


Lemma outside_cons_eq c order y :
  outside (c :: order) y = negb (hasPtr (ptr c) y) && outside order y.
Proof.
  unfold outside, memPtr. simpl. unfold hasPtr at 1 3.
  rewrite (Nat.eqb_sym (ptr c) (ptr y)). now rewrite negb_orb.
Qed.

Lemma outside_cons c order cl :
  filter (fun x => negb (hasPtr (ptr c) x)) (filter (outside order) cl)
  = filter (outside (c :: order)) cl.
Proof.
  induction cl as [| y cl IH]; simpl; [reflexivity |].
  rewrite outside_cons_eq.
  destruct (outside order y); simpl.
  - rewrite andb_true_r. destruct (hasPtr (ptr c) y); simpl; now rewrite IH.
  - now rewrite andb_false_r.
Qed.

Lemma outside_ptrs order cl x :
  In x (filter (outside order) cl) -> ~ In (ptr x) (ptrs order).
Proof.
  intros H. apply filter_In in H. destruct H as [_ H].
  unfold outside in H. apply negb_true_iff in H. now apply memPtr_false.
Qed.

Lemma filter_outside_last pre c :
  NoDup (ptrs (pre ++ [c])) ->
  filter (outside [c]) (pre ++ [c]) = pre.
Proof.
  intros HN. rewrite filter_app. simpl.
  unfold outside at 2. simpl. unfold hasPtr. rewrite Nat.eqb_refl. simpl.
  rewrite app_nil_r. apply forallb_filter_id, forallb_forall.
  intros y Hy. unfold outside. simpl. rewrite orb_false_r.
  destruct (hasPtr (ptr y) c) eqn:E; [| reflexivity].
  apply hasPtr_true in E. exfalso.
  unfold ptrs in HN. rewrite map_app in HN. simpl in HN.
  apply NoDup_remove_2 in HN. apply HN. rewrite app_nil_r.
  rewrite E. now apply in_map.
Qed.

Lemma filter_outside_incl l order :
  incl l order -> filter (outside order) l = [].
Proof.
  induction l as [| y l IH]; simpl; intros Hi; [reflexivity |].
  assert (Hy : memPtr (ptr y) order = true).
  { apply memPtr_true. apply in_map. apply Hi. now left. }
  unfold outside at 1. rewrite Hy. simpl.
  apply IH. intros z Hz. apply Hi. now right.
Qed.

(** Once the last component of [order] is topmost, the loop gathers
    [order] at the top of the list, in its order; the components that
    are not in [order] stay behind them. *)
Lemma toBehindLoop_gathers order :
  forall cl d,
    order <> [] ->
    NoDup (ptrs cl) -> NoDup (ptrs order) -> incl order cl ->
    (exists pre, cl = pre ++ [last order d]) ->
    toBehindLoop cl order = filter (outside order) cl ++ order.
Proof.
  induction order as [| c rest IH]; intros cl d Hne HNcl HNo Hincl Hlast;
    [congruence |].
  destruct rest as [| next r].
  - simpl in *. destruct Hlast as [pre ->].
    now rewrite filter_outside_last.
  - change (toBehindLoop cl (c :: next :: r))
      with (toBehind (toBehindLoop cl (next :: r)) c next).
    assert (HNo' : NoDup (ptrs (next :: r))) by (now inversion HNo).
    assert (Hc : ~ In (ptr c) (ptrs (next :: r))) by (now inversion HNo).
    rewrite (IH cl d); try assumption; try discriminate.
    2: { intros y Hy. apply Hincl. now right. }
    set (O := filter (outside (next :: r)) cl).
    assert (HcO : In c O).
    { apply filter_In. split; [apply Hincl; now left |].
      unfold outside. apply negb_true_iff. now apply memPtr_false. }
    assert (HNO : NoDup (ptrs O)) by (now apply NoDup_ptrs_filter).
    unfold toBehind.
    assert (Hneq : ptr c <> ptr next).
    { intros E. apply Hc. left. now symmetry. }
    apply Nat.eqb_neq in Hneq. rewrite Hneq.
    rewrite (findPtr_app_l _ _ _ _ (findPtr_In _ _ HNO HcO)).
    assert (Hmem : memPtr (ptr next) (O ++ next :: r) = true).
    { apply memPtr_true. unfold ptrs. rewrite map_app. apply in_or_app.
      right. now left. }
    rewrite Hmem.
    rewrite removePtr_app_l by (now apply in_map).
    rewrite removePtr_filter by assumption.
    rewrite insertBehind_app.
    + unfold O. now rewrite outside_cons.
    + intros H. unfold ptrs in H. apply in_map_iff in H.
      destruct H as [y [Hy1 Hy2]]. apply filter_In in Hy2.
      destruct Hy2 as [Hy2 _]. apply outside_ptrs in Hy2.
      apply Hy2. rewrite Hy1. now left.
Qed.

(** When the children of the parent are the components of [order],
    the child list is [order] afterwards. *)
Lemma fixZOrder_sorts cl order :
  NoDup (ptrs cl) -> Permutation cl order -> fixZOrder cl order = order.
Proof.
  intros HN HP. destruct order as [| c0 rest].
  - apply Permutation_sym, Permutation_nil in HP. now subst.
  - unfold fixZOrder.
    set (d := mkComponent 0 "" []).
    set (order := c0 :: rest) in *.
    assert (HlastIn : In (last order d) cl).
    { apply (Permutation_in _ (Permutation_sym HP)).
      unfold order.
      destruct (exists_last (l := c0 :: rest)) as [pre [z Hz]]; [discriminate |].
      rewrite Hz, last_last. apply in_or_app. right. now left. }
    assert (HPf := toFront_perm cl (last order d) HN).
    rewrite (toBehindLoop_gathers order _ d).
    + replace (filter (outside order) (toFront cl (last order d))) with (@nil Component);
        [reflexivity |].
      symmetry. apply (Permutation_nil (l := filter (outside order) (toFront cl (last order d)))).
      apply Permutation_sym.
      transitivity (filter (outside order) order).
      * apply filter_perm. transitivity cl; [now apply Permutation_sym | assumption].
      * rewrite filter_outside_incl; [constructor | apply incl_refl].
    + discriminate.
    + now apply (NoDup_ptrs_perm cl).
    + now apply (NoDup_ptrs_perm cl).
    + intros y Hy. apply (Permutation_in _ HPf).
      now apply (Permutation_in _ (Permutation_sym HP)).
    + rewrite (toFront_last _ _ HN HlastIn). eexists. reflexivity.
Qed.

End ZOrder.

(** ** The lookup in the pool *)

Lemma findComponentWithID_array_found l compId c l' :
  findComponentWithID_array l compId = (Some c, l') ->
  exists l1 l2,
    l = l1 ++ c :: l2 /\ l' = l1 ++ l2 /\ getComponentID c = compId /\
    Forall (fun x => getComponentID x <> compId) l2.
Proof.
  revert c l'. induction l as [| x l IH]; simpl; intros c l' H; [discriminate |].
  destruct (findComponentWithID_array l compId) as [[found |] rest'] eqn:E.
  - injection H as <- <-.
    destruct (IH found rest' eq_refl) as [l1 [l2 [H1 [H2 [H3 H4]]]]].
    exists (x :: l1), l2. subst. auto.
  - destruct (String.eqb (getComponentID x) compId) eqn:Ex; [| discriminate].
    injection H as <- <-. apply String.eqb_eq in Ex.
    exists [], l. repeat split; auto.
    clear IH. revert rest' E. induction l as [| y l IHl]; simpl; intros; [constructor |].
    destruct (findComponentWithID_array l compId) as [[f |] r] eqn:E'; [discriminate |].
    destruct (String.eqb (getComponentID y) compId) eqn:Ey; [discriminate |].
    constructor; [now apply String.eqb_neq | eauto].
Qed.

Lemma findComponentWithID_array_none l compId l' :
  findComponentWithID_array l compId = (None, l') ->
  l' = l /\ Forall (fun x => getComponentID x <> compId) l.
Proof.
  revert l'. induction l as [| x l IH]; simpl; intros l' H.
  - injection H as <-. auto.
  - destruct (findComponentWithID_array l compId) as [[f |] r] eqn:E; [discriminate |].
    destruct (String.eqb (getComponentID x) compId) eqn:Ex; [discriminate |].
    injection H as <-. split; [reflexivity |].
    constructor; [now apply String.eqb_neq | now apply (IH r)].
Qed.

(** When no component of the pool has the ID, nothing is found. *)
Lemma findComponentWithID_array_absent l compId :
  ~ In compId (map getComponentID l) ->
  findComponentWithID_array l compId = (None, l).
Proof.
  induction l as [| x l IH]; simpl; intros H; [reflexivity |].
  rewrite IH by tauto.
  destruct (String.eqb (getComponentID x) compId) eqn:E; [| reflexivity].
  apply String.eqb_eq in E. tauto.
Qed.

(** ** The pass over the children of the state *)


Lemma existing_snapshot (l : list Component) :
  flat_map (fun i => match nth_error l i with Some c => [c] | None => [] end)
           (seq 0 (length l)) = l.
Proof.
  induction l as [| x l IH]; [reflexivity |].
  cbn [length seq flat_map nth_error]. simpl. f_equal.
  rewrite <- seq_shift, flat_map_concat_map, map_map.
  rewrite <- flat_map_concat_map. exact IH.
Qed.

Lemma updateChildComponents_unfold b parent children :
  updateChildComponents b parent children =
  let st := reconcileAll b (childStates children)
              (mkPass parent (childComponentList parent) [] (freePtr b) [] false) in
  mkResult (setChildComponentList (passParent st)
              (fixZOrder (deleteComponents (existingComponents st)
                                           (childComponentList (passParent st)))
                         (componentsInOrder st)))
           (componentsInOrder st) (passCreated st) (existingComponents st)
           (passFreePtr st) (passAsserted st).
Proof.
  unfold updateChildComponents, reconcileAll, childStates, getNumChildComponents.
  rewrite existing_snapshot.
  cbv zeta.
  assert (E : forall l st,
             fold_left (fun st i => reconcileChild b st (getChild children i)) l st
             = fold_left (reconcileChild b) (map (getChild children) l) st).
  { induction l as [| i l IH]; simpl; intros; [reflexivity | apply IH]. }
  now rewrite E.
Qed.

(** *** The three cases of the loop body *)

Section LoopBody.

Variable b : ComponentBuilder.

Lemma reconcileChild_skip st childState :
  getHandlerForState b childState = None ->
  reconcileChild b st childState =
  mkPass (passParent st) (existingComponents st) (componentsInOrder st)
         (passFreePtr st) (passCreated st) true.
Proof. unfold reconcileChild. now intros ->. Qed.

Lemma reconcileChild_claim st childState type c pool :
  getHandlerForState b childState = Some type ->
  findComponentWithID_array (existingComponents st) (getStateId childState)
  = (Some c, pool) ->
  reconcileChild b st childState =
  mkPass (passParent st) pool (componentsInOrder st ++ [c])
         (passFreePtr st) (passCreated st)
         (passAsserted st || negb (isNotEmpty (getStateId childState))).
Proof. unfold reconcileChild. now intros -> ->. Qed.

Lemma storeComponent_fresh c l :
  (forall x, In x l -> ptr x <> ptr c) -> storeComponent c l = l.
Proof.
  intros H. unfold storeComponent. rewrite <- (map_id l) at 2.
  apply map_ext_in. intros x Hx.
  destruct (hasPtr (ptr c) x) eqn:E; [| reflexivity].
  apply hasPtr_true in E. now apply H in Hx.
Qed.

Lemma reconcileChild_create st childState type :
  getHandlerForState b childState = Some type ->
  fst (findComponentWithID_array (existingComponents st) (getStateId childState)) = None ->
  (forall x, In x (childComponentList (passParent st)) -> ptr x < passFreePtr st) ->
  let c := mkComponent (passFreePtr st) (getStateId childState)
                       (initialChildren type childState) in
  reconcileChild b st childState =
  mkPass (setChildComponentList (passParent st)
                                (childComponentList (passParent st) ++ [c]))
         (existingComponents st) (componentsInOrder st ++ [c])
         (S (passFreePtr st)) (passCreated st ++ [c])
         (passAsserted st || negb (isNotEmpty (getStateId childState))).
Proof.
  intros Ht Hf Hfresh c. unfold reconcileChild. rewrite Ht.
  destruct (findComponentWithID_array (existingComponents st) (getStateId childState))
    as [[f |] pool] eqn:E; simpl in Hf; [discriminate |].
  apply findComponentWithID_array_none in E. destruct E as [-> _].
  unfold createNewComponent, addNewComponentFromState. simpl.
  unfold setComponentID. simpl. fold c.
  unfold storeComponent. rewrite map_app. simpl.
  unfold hasPtr at 2. simpl. rewrite Nat.eqb_refl.
  change (map (fun x => if hasPtr (passFreePtr st) x then c else x)
              (childComponentList (passParent st)))
    with (storeComponent c (childComponentList (passParent st))).
  rewrite storeComponent_fresh.
  - now destruct (passParent st).
  - intros x Hx. apply Hfresh in Hx. simpl. lia.
Qed.

End LoopBody.

Lemma reconcileChild_cases b st childState :
  PassInv st -> StepCase b st childState (reconcileChild b st childState).
Proof.
  intros HI.
  destruct (getHandlerForState b childState) as [type |] eqn:Ht.
  - destruct (findComponentWithID_array (existingComponents st) (getStateId childState))
      as [[c |] pool] eqn:Ef.
    + rewrite (reconcileChild_claim b st childState type c pool Ht Ef).
      apply findComponentWithID_array_found in Ef.
      destruct Ef as [l1 [l2 [H1 [-> [H3 H4]]]]].
      now apply (step_claim b st childState type c l1 l2).
    + rewrite (reconcileChild_create b st childState type Ht).
      * apply findComponentWithID_array_none in Ef.
        now apply (step_create b st childState type).
      * now rewrite Ef.
      * apply (inv_fresh st HI).
  - rewrite (reconcileChild_skip b st childState Ht). now constructor.
Qed.

Lemma reconcileChild_inv b st childState :
  PassInv st -> PassInv (reconcileChild b st childState).
Proof.
  intros HI. destruct (reconcileChild_cases b st childState HI)
    as [Ht | type c l1 l2 Ht Hpool Hid Hl2 | type Ht Hpool c];
    destruct HI as [Hperm Hnd Hfresh].
  - now constructor.
  - constructor; simpl; try assumption.
    rewrite Hpool in Hperm. etransitivity; [exact Hperm |].
    rewrite <- !app_assoc. apply Permutation_app_head.
    simpl. etransitivity; [apply Permutation_cons_append |].
    now rewrite <- app_assoc.
  - constructor; simpl.
    + rewrite app_assoc. now apply Permutation_app_tail.
    + unfold ptrs. rewrite map_app. simpl.
      apply (Permutation_NoDup (l := passFreePtr st :: ptrs (childComponentList (passParent st)))).
      * apply Permutation_cons_append.
      * constructor; [| assumption].
        unfold ptrs. rewrite in_map_iff. intros [x [Hx1 Hx2]].
        apply Hfresh in Hx2. lia.
    + intros x Hx. apply in_app_or in Hx. destruct Hx as [Hx | [<- | []]].
      * apply Hfresh in Hx. lia.
      * simpl. lia.
Qed.

Lemma reconcileAll_cons b s states st :
  reconcileAll b (s :: states) st = reconcileAll b states (reconcileChild b st s).
Proof. reflexivity. Qed.

Lemma reconcileAll_inv b states :
  forall st, PassInv st -> PassInv (reconcileAll b states st).
Proof.
  induction states as [| s states IH]; simpl; intros st HI; [exact HI |].
  apply IH. now apply reconcileChild_inv.
Qed.

(** The IDs of the ordered array are the IDs of the child states that
    have a handler, in their order. *)
Lemma reconcileAll_ids b states :
  forall st,
    PassInv st ->
    map getComponentID (componentsInOrder (reconcileAll b states st))
    = map getComponentID (componentsInOrder st)
      ++ map getStateId (filter (hasHandler b) states).
Proof.
  induction states as [| s states IH]; intros st HI.
  - simpl. now rewrite app_nil_r.
  - rewrite reconcileAll_cons, IH by (now apply reconcileChild_inv).
    simpl. unfold hasHandler at 2.
    destruct (reconcileChild_cases b st s HI)
      as [Ht | type c l1 l2 Ht Hpool Hid Hl2 | type Ht Hpool c]; rewrite Ht; simpl.
    + reflexivity.
    + rewrite map_app, <- app_assoc. simpl. now rewrite Hid.
    + rewrite map_app, <- app_assoc. reflexivity.
Qed.

(** The parent stays the same object during the pass. *)
Lemma reconcileAll_parent b states :
  forall st,
    PassInv st ->
    ptr (passParent (reconcileAll b states st)) = ptr (passParent st) /\
    getComponentID (passParent (reconcileAll b states st)) = getComponentID (passParent st).
Proof.
  induction states as [| s states IH]; intros st HI; [simpl; auto |].
  rewrite reconcileAll_cons.
  destruct (IH _ (reconcileChild_inv b st s HI)) as [E1 E2]. rewrite E1, E2.
  destruct (reconcileChild_cases b st s HI); simpl; auto.
Qed.

Lemma NoDup_app_disjoint (l1 l2 : list nat) :
  NoDup (l1 ++ l2) -> forall a, In a l1 -> ~ In a l2.
Proof.
  induction l1 as [| x l1 IH]; simpl; intros HN a Ha; [contradiction |].
  inversion HN as [| ? ? Hx Hl]; subst.
  destruct Ha as [-> | Ha]; [| now apply IH].
  intros H. apply Hx. apply in_or_app. now right.
Qed.

(** After the pass, the children of the parent are the ordered array. *)
Lemma deleteComponents_order pool order cl :
  NoDup (ptrs cl) -> Permutation cl (pool ++ order) ->
  Permutation (deleteComponents pool cl) order /\
  NoDup (ptrs (deleteComponents pool cl)).
Proof.
  intros HN HP. split; [| now apply NoDup_ptrs_filter].
  change (deleteComponents pool cl) with (filter (outside pool) cl).
  etransitivity; [apply filter_perm; exact HP |].
  rewrite filter_app.
  rewrite filter_outside_incl by apply incl_refl. simpl.
  assert (HN' : NoDup (ptrs (pool ++ order))) by (now apply (NoDup_ptrs_perm cl)).
  rewrite forallb_filter_id; [reflexivity |].
  apply forallb_forall. intros x Hx. unfold outside.
  apply negb_true_iff, memPtr_false. intros Hin.
  unfold ptrs in HN'. rewrite map_app in HN'.
  apply (NoDup_app_disjoint _ _ HN' (ptr x)); [exact Hin | now apply in_map].
Qed.

(** ** The claims about child-list reconciliation *)

Lemma initial_inv b parent :
  childrenAllocated b parent ->
  PassInv (mkPass parent (childComponentList parent) [] (freePtr b) [] false).
Proof.
  intros [HN HF]. constructor; simpl; try assumption.
  now rewrite app_nil_r.
Qed.

(** After a pass the children of the parent are the ordered array, from
    the back to the top. *)
Lemma updateChildComponents_children b parent children :
  childrenAllocated b parent ->
  childComponentList (resParent (updateChildComponents b parent children))
  = resInOrder (updateChildComponents b parent children).
Proof.
  intros HW. rewrite updateChildComponents_unfold. cbv zeta. simpl.
  pose proof (reconcileAll_inv b (childStates children) _ (initial_inv b parent HW)) as HI.
  destruct HI as [Hperm Hnd _].
  destruct (deleteComponents_order _ _ _ Hnd Hperm) as [HP HN].
  now apply fixZOrder_sorts.
Qed.

Lemma filter_all_handled b states :
  (forall s, In s states -> getHandlerForState b s <> None) ->
  filter (hasHandler b) states = states.
Proof.
  intros H. apply forallb_filter_id, forallb_forall. intros s Hs.
  unfold hasHandler. specialize (H s Hs).
  now destruct (getHandlerForState b s).
Qed.

(** C1.  When every child of the state has a registered handler, the
    children of the parent after [updateChildComponents] are the
    components of the child states, in the order of the child states:
    the list of their IDs is the list of the state IDs, index by index,
    so the component of the last child state is the topmost one and
    each other one lies immediately behind the component of the next
    state.  The child list is the ordered array the pass built. *)
Theorem updateChildComponents_order b parent children :
  childrenAllocated b parent ->
  (forall s, In s (childStates children) -> getHandlerForState b s <> None) ->
  map getComponentID (childComponentList (resParent (updateChildComponents b parent children)))
  = map getStateId (childStates children)
  /\ childComponentList (resParent (updateChildComponents b parent children))
     = resInOrder (updateChildComponents b parent children)
  /\ ptr (resParent (updateChildComponents b parent children)) = ptr parent.
Proof.
  intros HW Hall.
  rewrite (updateChildComponents_children b parent children HW).
  rewrite updateChildComponents_unfold. cbv zeta. simpl.
  rewrite (reconcileAll_ids b _ _ (initial_inv b parent HW)). simpl.
  rewrite (filter_all_handled b _ Hall).
  repeat split.
  apply (reconcileAll_parent b _ _ (initial_inv b parent HW)).
Qed.

Lemma updateChildComponents_order_witness :
  map getComponentID
      (childComponentList (resParent (updateChildComponents sceneBuilder sceneRoot
                                                            (state sceneBuilder))))
  = ["c"; "a"; "b"]
  /\ childComponentList (resParent (updateChildComponents sceneBuilder sceneRoot
                                                          (state sceneBuilder)))
     = resInOrder (updateChildComponents sceneBuilder sceneRoot (state sceneBuilder))
  /\ ptr (resParent (updateChildComponents sceneBuilder sceneRoot (state sceneBuilder))) = 1.
Proof.
  apply (updateChildComponents_order sceneBuilder sceneRoot (state sceneBuilder)).
  - solve_allocated.
  - solve_handlers.
Defined.

(** When the pool holds the components of the states that are left, in
    their order, each state claims the first component of the pool. *)
Lemma reconcileAll_settled b :
  forall states pool parent order free created asserted,
    map getComponentID pool = map getStateId states ->
    NoDup (map getStateId states) ->
    (forall s, In s states -> getHandlerForState b s <> None) ->
    (forall s, In s states -> getStateId s <> "") ->
    reconcileAll b states (mkPass parent pool order free created asserted)
    = mkPass parent [] (order ++ pool) free created asserted.
Proof.
  induction states as [| s states IH];
    intros pool parent order free created asserted Hids Hnd Hh Hne.
  - destruct pool; [| discriminate]. simpl. now rewrite app_nil_r.
  - destruct pool as [| c pool]; [discriminate |].
    simpl in Hids. injection Hids as Hc Hids.
    inversion Hnd as [| ? ? Hs Hnd']; subst.
    rewrite reconcileAll_cons.
    destruct (getHandlerForState b s) as [type |] eqn:Ht;
      [| exfalso; apply (Hh s); [now left | assumption]].
    rewrite (reconcileChild_claim b _ s type c pool Ht).
    + simpl.
      assert (Es : isNotEmpty (getStateId s) = true).
      { unfold isNotEmpty. apply negb_true_iff, String.eqb_neq, Hne. now left. }
      rewrite Es, orb_false_r.
      rewrite IH; try assumption.
      * now rewrite <- app_assoc.
      * intros s' Hs'. apply Hh. now right.
      * intros s' Hs'. apply Hne. now right.
    + simpl. rewrite findComponentWithID_array_absent by (now rewrite Hids).
      apply String.eqb_eq in Hc. now rewrite Hc.
Qed.

(** The children a pass leaves are again distinct objects below the
    free address. *)
Lemma updateChildComponents_allocated b parent children :
  childrenAllocated b parent ->
  childrenAllocated (afterPass b (updateChildComponents b parent children))
                    (resParent (updateChildComponents b parent children)).
Proof.
  intros HW. unfold childrenAllocated.
  rewrite (updateChildComponents_children b parent children HW).
  rewrite updateChildComponents_unfold. cbv zeta. cbn [resInOrder afterPass freePtr resFreePtr].
  destruct (reconcileAll_inv b (childStates children) _ (initial_inv b parent HW))
    as [Hperm Hnd Hfresh].
  split.
  - apply (NoDup_ptrs_perm _ _ Hperm) in Hnd. unfold ptrs in Hnd.
    rewrite map_app in Hnd. now apply NoDup_app_remove_l in Hnd.
  - intros x Hx. apply Hfresh. apply (Permutation_in _ (Permutation_sym Hperm)).
    apply in_or_app. now right.
Qed.

Lemma updateChildComponents_settled b parent children :
  childrenAllocated b parent ->
  (forall s, In s (childStates children) -> getHandlerForState b s <> None) ->
  (forall s, In s (childStates children) -> getStateId s <> "") ->
  NoDup (map getStateId (childStates children)) ->
  map getComponentID (childComponentList parent) = map getStateId (childStates children) ->
  updateChildComponents b parent children
  = mkResult parent (childComponentList parent) [] [] (freePtr b) false.
Proof.
  intros [HN HF] Hh Hne Hnd Hids.
  rewrite updateChildComponents_unfold. cbv zeta.
  rewrite (reconcileAll_settled b _ _ _ _ _ _ _ Hids Hnd Hh Hne). simpl.
  f_equal.
  unfold deleteComponents. simpl. rewrite filter_true.
  rewrite fixZOrder_sorts; [now destruct parent | assumption | reflexivity].
Qed.

(** C2.  Let the child states all have handlers and non-empty IDs that
    differ from one another.  When the children of the parent carry
    these IDs in the same order, a pass constructs no component and
    deletes none: each state finds its component in the pool, the
    ordered array is the child list as it was (the same objects), the
    parent is left as it was, no assertion fails and nothing is
    allocated.  This is the case of a second pass that follows a first
    one on the same state. *)
Theorem updateChildComponents_twice b parent children :
  childrenAllocated b parent ->
  (forall s, In s (childStates children) -> getHandlerForState b s <> None) ->
  (forall s, In s (childStates children) -> getStateId s <> "") ->
  NoDup (map getStateId (childStates children)) ->
  (map getComponentID (childComponentList parent) = map getStateId (childStates children) ->
   updateChildComponents b parent children
   = mkResult parent (childComponentList parent) [] [] (freePtr b) false)
  /\ updateChildComponents (afterPass b (updateChildComponents b parent children))
                           (resParent (updateChildComponents b parent children)) children
     = mkResult (resParent (updateChildComponents b parent children))
                (resInOrder (updateChildComponents b parent children))
                [] []
                (resFreePtr (updateChildComponents b parent children)) false.
Proof.
  intros HW Hh Hne Hnd. split.
  - now apply updateChildComponents_settled.
  - rewrite <- (updateChildComponents_children b parent children HW).
    apply (updateChildComponents_settled
             (afterPass b (updateChildComponents b parent children))); try assumption.
    + now apply updateChildComponents_allocated.
    + rewrite (updateChildComponents_children b parent children HW).
      rewrite updateChildComponents_unfold. cbv zeta. cbn [resInOrder].
      rewrite (reconcileAll_ids b _ _ (initial_inv b parent HW)). simpl.
      now rewrite (filter_all_handled b _ Hh).
Qed.

Lemma updateChildComponents_twice_witness :
  updateChildComponents settledBuilder sceneRoot (state settledBuilder)
  = mkResult sceneRoot [compB; compA] [] [] 5 false
  /\ updateChildComponents
       (afterPass sceneBuilder (updateChildComponents sceneBuilder sceneRoot (state sceneBuilder)))
       (resParent (updateChildComponents sceneBuilder sceneRoot (state sceneBuilder)))
       (state sceneBuilder)
     = mkResult (rootOf [mkComponent 5 "c" []; compA; compB])
                [mkComponent 5 "c" []; compA; compB] [] [] 6 false.
Proof.
  split.
  - destruct (updateChildComponents_twice settledBuilder sceneRoot (state settledBuilder))
      as [H _].
    + solve_allocated.
    + solve_handlers.
    + solve_handlers.
    + repeat constructor; simpl; intuition discriminate.
    + apply H. reflexivity.
  - destruct (updateChildComponents_twice sceneBuilder sceneRoot (state sceneBuilder))
      as [_ H].
    + solve_allocated.
    + solve_handlers.
    + solve_handlers.
    + repeat constructor; simpl; intuition discriminate.
    + exact H.
Defined.

(** ** The two searches *)

(** C3 as it is worded fails: of two components of the pool with the
    same ID, the lookup takes the one at the higher index, not the
    earliest one. *)
Lemma pool_lookup_not_earliest :
  find (hasID "x") twinPool = Some twinBack
  /\ findComponentWithID_array twinPool "x" = (Some twinTop, [twinBack])
  /\ fst (findComponentWithID_array twinPool "x") <> find (hasID "x") twinPool.
Proof.
  repeat split. simpl. discriminate.
Qed.

(** C3, amended.  When components of the pool have the ID, the lookup
    claims the one at the highest index: no component after it has the
    ID.  The pool keeps all the others, those of the same ID before it
    too, in their order. *)
Theorem pool_lookup_claims_last pool compId :
  In compId (map getComponentID pool) ->
  exists l1 c l2,
    pool = l1 ++ c :: l2
    /\ getComponentID c = compId
    /\ Forall (fun x => getComponentID x <> compId) l2
    /\ findComponentWithID_array pool compId = (Some c, l1 ++ l2).
Proof.
  intros Hin.
  destruct (findComponentWithID_array pool compId) as [[c |] pool'] eqn:E.
  - destruct (findComponentWithID_array_found _ _ _ _ E) as [l1 [l2 [H1 [H2 [H3 H4]]]]].
    exists l1, c, l2. subst pool'. auto.
  - apply findComponentWithID_array_none in E. destruct E as [_ HF].
    rewrite Forall_forall in HF. apply in_map_iff in Hin.
    destruct Hin as [x [Hx1 Hx2]]. now apply HF in Hx2.
Qed.

Lemma pool_lookup_claims_last_witness :
  exists l1 c l2,
    twinPool = l1 ++ c :: l2
    /\ getComponentID c = "x"
    /\ Forall (fun x => getComponentID x <> "x") l2
    /\ findComponentWithID_array twinPool "x" = (Some c, l1 ++ l2).
Proof.
  apply (pool_lookup_claims_last twinPool "x").
  simpl. left. reflexivity.
Defined.

Lemma find_app (f : Component -> bool) (l1 l2 : list Component) :
  find f (l1 ++ l2) = match find f l1 with Some x => Some x | None => find f l2 end.
Proof.
  induction l1 as [| x l1 IH]; simpl; [reflexivity |].
  now destruct (f x).
Qed.

Lemma visitFromTopmost_unfold p i children :
  visitFromTopmost (mkComponent p i children)
  = mkComponent p i children :: flat_map visitFromTopmost (rev children).
Proof.
  simpl. f_equal.
  induction children as [| child rest IH]; simpl; [reflexivity |].
  rewrite IH, flat_map_app. simpl. now rewrite app_nil_r.
Qed.

(** C4 as it is worded fails: below the root the search meets the
    child at the last index first, not the child at index 0. *)
Lemma tree_search_not_in_child_order :
  find (hasID "x") (visitInChildOrder twinRoot) = Some twinBack
  /\ findComponentWithID twinRoot "x" = Some twinTop
  /\ findComponentWithID twinRoot "x" <> find (hasID "x") (visitInChildOrder twinRoot).
Proof.
  repeat split. simpl. discriminate.
Qed.

Lemma findComponentWithID_walk c compId :
  findComponentWithID c compId = find (hasID compId) (visitFromTopmost c).
Proof.
  induction c as [p i children IH] using Component_children_ind.
  rewrite visitFromTopmost_unfold.
  cbn [findComponentWithID find]. unfold hasID at 1. cbn [getComponentID].
  destruct (String.eqb i compId); [reflexivity |].
  induction children as [| child rest IHrest]; [reflexivity |].
  inversion IH as [| ? ? Hchild Hrest]; subst.
  cbn [rev]. rewrite flat_map_app, find_app. cbn [flat_map].
  rewrite app_nil_r, <- Hchild, <- (IHrest Hrest).
  reflexivity.
Qed.

(** C4, amended.  The search is depth first: it looks at the root,
    then at the children from the last index (the topmost one) down to
    index 0, each with its own children in the same way, and it returns
    the first component of this walk that has the ID. *)
Theorem tree_search_from_topmost c compId :
  findComponentWithID c compId = find (hasID compId) (visitFromTopmost c)
  /\ visitFromTopmost c
     = c :: flat_map visitFromTopmost (rev (childComponentList c)).
Proof.
  split; [apply findComponentWithID_walk |].
  destruct c as [p i children]. apply visitFromTopmost_unfold.
Qed.

(** ** Facts on the registry and on the tree search *)

Lemma firstHandlerOfType_split ts targetType :
  match firstHandlerOfType ts targetType with
  | Some t =>
      exists before after,
        ts = before ++ t :: after
        /\ valueTreeType t = targetType
        /\ Forall (fun h => valueTreeType h <> targetType) before
  | None => Forall (fun h => valueTreeType h <> targetType) ts
  end.
Proof.
  induction ts as [| h ts IH]; simpl; [constructor |].
  destruct (String.eqb (valueTreeType h) targetType) eqn:E.
  - apply String.eqb_eq in E. exists [], ts. auto.
  - apply String.eqb_neq in E.
    destruct (firstHandlerOfType ts targetType) as [t |].
    + destruct IH as [before [after [H1 [H2 H3]]]].
      exists (h :: before), after. subst ts. auto.
    + now constructor.
Qed.

(** The walk from the topmost child goes through the components of the
    tree, the same ones as the walk in child order. *)
Lemma visitFromTopmost_In c x :
  In x (visitFromTopmost c) <-> In x (visitInChildOrder c).
Proof.
  induction c as [p i children IH] using Component_children_ind.
  rewrite visitFromTopmost_unfold. cbn [visitInChildOrder].
  simpl. rewrite !in_flat_map.
  rewrite Forall_forall in IH.
  split; (intros [H | [y [Hy1 Hy2]]]; [now left | right; exists y]).
  - apply in_rev in Hy1. split; [assumption | now apply IH].
  - split; [now apply -> in_rev | now apply IH].
Qed.

Lemma findComponentWithID_some c compId found :
  findComponentWithID c compId = Some found ->
  In found (visitInChildOrder c) /\ getComponentID found = compId.
Proof.
  rewrite findComponentWithID_walk. intros H.
  apply find_some in H. destruct H as [H1 H2].
  split; [now apply visitFromTopmost_In | now apply String.eqb_eq].
Qed.

Lemma findComponentWithID_none c compId :
  findComponentWithID c compId = None <->
  forall x, In x (visitInChildOrder c) -> getComponentID x <> compId.
Proof.
  rewrite findComponentWithID_walk. split.
  - intros H x Hx. apply visitFromTopmost_In in Hx.
    apply (find_none _ _ H) in Hx. now apply String.eqb_neq.
  - intros H. destruct (find (hasID compId) (visitFromTopmost c)) as [x |] eqn:E;
      [| reflexivity].
    apply find_some in E. destruct E as [E1 E2].
    apply visitFromTopmost_In in E1. apply H in E1.
    apply String.eqb_eq in E2. contradiction.
Qed.

(** ** Notifications *)

Lemma getManagedComponent_types b :
  types (snd (getManagedComponent b)) = types b
  /\ state (snd (getManagedComponent b)) = state b
  /\ component (snd (getManagedComponent b)) = fst (getManagedComponent b).
Proof.
  unfold getManagedComponent. destruct (component b) eqn:E; simpl; [auto |].
  now destruct (createComponent b) as [[c free] asserted].
Qed.

Lemma getManagedComponent_managed b top :
  component b = Some top -> getManagedComponent b = (Some top, b).
Proof. unfold getManagedComponent. now intros ->. Qed.

Lemma getHandlerForState_managed b s :
  getHandlerForState (snd (getManagedComponent b)) s = getHandlerForState b s.
Proof.
  unfold getHandlerForState. now rewrite (proj1 (getManagedComponent_types b)).
Qed.

(** With the root in place, [updateComponent] leaves the builder as it
    is and makes the calls the specification asks for. *)
Lemma updateComponent_managed b top :
  component b = Some top ->
  forall tree, updateComponent b tree = (b, updateCalls b top tree).
Proof.
  intros Hc. induction tree as [| o parent IH].
  - simpl. rewrite (getManagedComponent_managed b top Hc). simpl.
    unfold updateCalls, resolveTarget. simpl.
    now destruct (getHandlerForState b invalid).
  - cbn [updateComponent]. rewrite (getManagedComponent_managed b top Hc).
    cbv iota beta zeta.
    unfold updateCalls, resolveTarget. cbn [ancestorsOrSelf find].
    unfold addressable at 1, hasHandler at 1, isNotEmpty at 1.
    destruct (getHandlerForState b (validTree o parent)) as [t |] eqn:Ht.
    + destruct (String.eqb (getStateId (validTree o parent)) "") eqn:Eu.
      * cbn [negb andb]. destruct parent as [| o' p']; [reflexivity |].
        cbn [isValid]. rewrite IH. reflexivity.
      * cbn [negb andb]. rewrite Ht.
        now destruct (findComponentWithID top (getStateId (validTree o parent))).
    + cbn [andb]. destruct parent as [| o' p']; [reflexivity |].
      cbn [isValid]. rewrite IH. reflexivity.
Qed.

(** In general the builder goes through [getManagedComponent] first. *)
Lemma updateComponent_calls b tree :
  updateComponent b tree =
  (snd (getManagedComponent b),
   match fst (getManagedComponent b) with
   | Some top => updateCalls b top tree
   | None => []
   end).
Proof.
  destruct (getManagedComponent b) as [top b1] eqn:E. cbn [fst snd].
  pose proof (getManagedComponent_types b) as [Ht [_ Hc]]. rewrite E in Ht, Hc.
  cbn [fst snd] in Ht, Hc.
  destruct top as [top |].
  - assert (E' : updateComponent b tree = updateComponent b1 tree).
    { destruct tree; cbn [updateComponent];
        rewrite E, (getManagedComponent_managed b1 top Hc); reflexivity. }
    rewrite E', (updateComponent_managed b1 top Hc).
    unfold updateCalls, resolveTarget, addressable, hasHandler, getHandlerForState.
    now rewrite Ht.
  - destruct tree; cbn [updateComponent]; now rewrite E.
Qed.

Lemma deliver_updateComponent b n :
  deliver b n = updateComponent b (notifiedTree n).
Proof. now destruct n. Qed.



(** C5 as it is worded fails: the notification that a child was added
    runs the very procedure of a property change.  Here the state of
    the root has two children and the root component has none; a pass
    of [updateChildComponents] would give it a child, the notification
    leaves it without one. *)
Lemma child_added_does_not_reconcile :
  valueTreeChildAdded bareBuilder nodeRoot nodeA
  = valueTreePropertyChanged bareBuilder nodeRoot "text"
  /\ component (fst (valueTreeChildAdded bareBuilder nodeRoot nodeA)) = Some bareRoot
  /\ childComponentList bareRoot = []
  /\ childComponentList (resParent (updateChildComponents bareBuilder bareRoot nodeRoot))
     = [mkComponent 2 "a" []].
Proof. repeat split. Qed.

(** C5, amended.  The five notifications run one and the same
    procedure, [updateComponent] on the node they name; a notification
    of a change in the children does nothing more than a notification
    of a property change.  None of them reconciles a child list: the
    builder is left as [getManagedComponent] leaves it, and at most one
    call of [updateComponentFromState] is made. *)
Theorem notifications_same_procedure b tree child property :
  valueTreeChildAdded b tree child = valueTreePropertyChanged b tree property
  /\ valueTreeChildRemoved b tree child = valueTreePropertyChanged b tree property
  /\ valueTreeChildOrderChanged b tree = valueTreePropertyChanged b tree property
  /\ valueTreeParentChanged b tree = valueTreePropertyChanged b tree property
  /\ fst (valueTreePropertyChanged b tree property) = snd (getManagedComponent b)
  /\ length (snd (valueTreePropertyChanged b tree property)) <= 1.
Proof.
  do 4 (split; [reflexivity |]).
  unfold valueTreePropertyChanged. rewrite updateComponent_calls. cbn [fst snd].
  split; [reflexivity |].
  destruct (fst (getManagedComponent b)) as [top |]; [| simpl; lia].
  unfold updateCalls. destruct (resolveTarget b tree) as [target |]; [| simpl; lia].
  destruct (getHandlerForState b target); [| simpl; lia].
  destruct (findComponentWithID top (getStateId target)); simpl; lia.
Qed.



(** C8 as it is worded fails: when the root has not been constructed
    yet, a notification for an identifier without a live component
    makes no call, but it constructs the root. *)
Lemma stale_notification_constructs_root :
  component lazyBuilder = None
  /\ resolveTarget lazyBuilder nodeA = Some nodeA
  /\ findComponentWithID bareRoot (getStateId nodeA) = None
  /\ deliver lazyBuilder (PropertyChanged nodeA "text")
     = (builderOf [buttonA; sliderS] (Some bareRoot) 2, [])
  /\ fst (deliver lazyBuilder (PropertyChanged nodeA "text")) <> lazyBuilder.
Proof. repeat split. simpl. discriminate. Qed.

(** C8, amended.  With the root already constructed, a notification
    whose node resolves to an identifier that no component of the
    managed tree has does nothing: the builder, and the component tree
    in it, are as before, and no call of [updateComponentFromState] is
    made. *)
Theorem stale_notification_noop b n top target :
  component b = Some top ->
  resolveTarget b (notifiedTree n) = Some target ->
  findComponentWithID top (getStateId target) = None ->
  deliver b n = (b, []).
Proof.
  intros Hc Hr Hf.
  rewrite deliver_updateComponent, (updateComponent_managed b top Hc).
  unfold updateCalls. rewrite Hr, Hf.
  now destruct (getHandlerForState b target).
Qed.

Lemma stale_notification_noop_witness :
  deliver bareBuilder (ChildRemoved nodeA invalid) = (bareBuilder, []).
Proof.
  apply (stale_notification_noop bareBuilder (ChildRemoved nodeA invalid) bareRoot nodeA);
    reflexivity.
Defined.

(** C9 as it is worded fails: when no registered handler has the type
    of the builder's state, a notification constructs no root; the
    builder stays without one, and the assertion of [createComponent]
    fails.  This is so with handlers registered for other types and
    with no handler at all. *)
Lemma notification_builds_no_root_without_handler :
  component sliderRootBuilder = None
  /\ getHandlerForState sliderRootBuilder (state sliderRootBuilder) = None
  /\ deliver sliderRootBuilder (PropertyChanged (state sliderRootBuilder) "text")
     = (sliderRootBuilder, [])
  /\ createComponent sliderRootBuilder = (None, 1, true)
  /\ component (fst (deliver emptyBuilder (ChildAdded nodeRoot nodeA))) = None.
Proof. repeat split. Qed.

(** C9, amended.  When the root has not been constructed and the state
    of the builder has a handler, each of the five notifications, whatever
    node it names, leaves the builder with the root that
    [getManagedComponent] constructs: a new component made by this
    handler, with the identifier of the state. *)
Theorem notification_constructs_root b n type :
  component b = None ->
  getHandlerForState b (state b) = Some type ->
  component (fst (deliver b n)) = fst (getManagedComponent b)
  /\ fst (getManagedComponent b)
     = Some (mkComponent (freePtr b) (getStateId (state b))
                         (initialChildren type (state b))).
Proof.
  intros Hc Ht. split.
  - rewrite deliver_updateComponent, updateComponent_calls. cbn [fst].
    apply (getManagedComponent_types b).
  - unfold getManagedComponent, createComponent. rewrite Hc, Ht. reflexivity.
Qed.

Lemma notification_constructs_root_witness :
  snd (deliver lazyBuilder (PropertyChanged nodeA "text")) = []
  /\ component (fst (deliver lazyBuilder (PropertyChanged nodeA "text")))
     = fst (getManagedComponent lazyBuilder)
  /\ fst (getManagedComponent lazyBuilder) = Some (mkComponent 1 "root" []).
Proof.
  split; [reflexivity |].
  apply (notification_constructs_root lazyBuilder (PropertyChanged nodeA "text") panelHandler);
    reflexivity.
Defined.

(** ** What the pass creates, keeps and deletes *)

Section PassFacts.

Variable b : ComponentBuilder.

(** Along the loop the arrays of created and ordered components grow,
    the pool shrinks, the free address does not go down and a failed
    assertion stays failed. *)
Lemma reconcileChild_monotone st s :
  PassInv st ->
  incl (passCreated st) (passCreated (reconcileChild b st s))
  /\ incl (componentsInOrder st) (componentsInOrder (reconcileChild b st s))
  /\ incl (existingComponents (reconcileChild b st s)) (existingComponents st)
  /\ passFreePtr st <= passFreePtr (reconcileChild b st s)
  /\ (passAsserted st = true -> passAsserted (reconcileChild b st s) = true).
Proof.
  intros HI.
  destruct (reconcileChild_cases b st s HI)
    as [Ht | type c l1 l2 Ht Hpool Hid Hl2 | type Ht Hpool c]; simpl;
    repeat split; try apply incl_refl; try (apply incl_appl, incl_refl);
    try lia; try (intros ->; reflexivity); try reflexivity.
  rewrite Hpool. intros x Hx. apply in_app_or in Hx. apply in_or_app.
  destruct Hx; [now left | right; now right].
Qed.

Lemma reconcileAll_monotone states :
  forall st,
    PassInv st ->
    incl (passCreated st) (passCreated (reconcileAll b states st))
    /\ incl (componentsInOrder st) (componentsInOrder (reconcileAll b states st))
    /\ incl (existingComponents (reconcileAll b states st)) (existingComponents st)
    /\ passFreePtr st <= passFreePtr (reconcileAll b states st)
    /\ (passAsserted st = true -> passAsserted (reconcileAll b states st) = true).
Proof.
  induction states as [| s states IH]; intros st HI.
  - simpl. repeat split; auto using incl_refl.
  - rewrite reconcileAll_cons.
    destruct (IH _ (reconcileChild_inv b st s HI)) as [A1 [A2 [A3 [A4 A5]]]].
    destruct (reconcileChild_monotone st s HI) as [B1 [B2 [B3 [B4 B5]]]].
    repeat split.
    + eapply incl_tran; eassumption.
    + eapply incl_tran; eassumption.
    + eapply incl_tran; eassumption.
    + lia.
    + auto.
Qed.

(** A state with a handler whose ID no component of the pool has gets a
    new component, made by its handler, with its ID. *)
Lemma reconcileAll_creates states :
  forall st childState type,
    PassInv st ->
    In childState states ->
    getHandlerForState b childState = Some type ->
    Forall (fun x => getComponentID x <> getStateId childState) (existingComponents st) ->
    exists c,
      In c (passCreated (reconcileAll b states st))
      /\ In c (componentsInOrder (reconcileAll b states st))
      /\ getComponentID c = getStateId childState
      /\ childComponentList c = initialChildren type childState
      /\ passFreePtr st <= ptr c.
Proof.
  induction states as [| s states IH]; intros st childState type HI Hin Ht Hpool;
    [contradiction |].
  rewrite reconcileAll_cons.
  pose proof (reconcileChild_inv b st s HI) as HI1.
  destruct (reconcileAll_monotone states _ HI1) as [M1 [M2 _]].
  destruct (reconcileChild_monotone st s HI) as [_ [_ [N3 [N4 _]]]].
  destruct Hin as [-> | Hin].
  - clear IH.
    destruct (reconcileChild_cases b st childState HI)
      as [Ht' | type' c l1 l2 Ht' Hpool' Hid Hl2 | type' Ht' Hpool' c].
    + congruence.
    + exfalso. rewrite Hpool' in Hpool. apply Forall_app in Hpool.
      destruct Hpool as [_ Hpool]. inversion Hpool; subst. contradiction.
    + assert (type' = type) by congruence. subst type'.
      exists c. repeat split.
      * apply M1. simpl. apply in_or_app. right. now left.
      * apply M2. simpl. apply in_or_app. right. now left.
      * simpl. lia.
  - destruct (IH (reconcileChild b st s) childState type HI1 Hin Ht)
      as [c [C1 [C2 [C3 [C4 C5]]]]].
    + rewrite Forall_forall in *. intros x Hx. apply Hpool. now apply N3.
    + exists c. repeat split; try assumption. lia.
Qed.

(** The components the pass creates carry IDs of states with a handler. *)
Lemma reconcileAll_created_ids states :
  forall st c,
    PassInv st ->
    In c (passCreated (reconcileAll b states st)) ->
    In c (passCreated st)
    \/ In (getComponentID c) (map getStateId (filter (hasHandler b) states)).
Proof.
  induction states as [| s states IH]; intros st c HI Hc; [now left |].
  rewrite reconcileAll_cons in Hc.
  destruct (IH _ c (reconcileChild_inv b st s HI) Hc) as [H | H].
  - simpl. unfold hasHandler at 1.
    destruct (reconcileChild_cases b st s HI)
      as [Ht | type c' l1 l2 Ht Hpool Hid Hl2 | type Ht Hpool c']; rewrite Ht;
      simpl in H; auto.
    apply in_app_or in H. destruct H as [H | [<- | []]]; [now left |].
    right. simpl. now left.
  - right. simpl. destruct (hasHandler b s); [now right | assumption].
Qed.

(** A component of the pool whose ID no state with a handler has stays
    in the pool to the end. *)
Lemma reconcileAll_pool_keeps states :
  forall st x,
    PassInv st ->
    In x (existingComponents st) ->
    ~ In (getComponentID x) (map getStateId (filter (hasHandler b) states)) ->
    In x (existingComponents (reconcileAll b states st)).
Proof.
  induction states as [| s states IH]; intros st x HI Hx Hid; [assumption |].
  rewrite reconcileAll_cons. simpl in Hid. unfold hasHandler at 1 in Hid.
  apply IH; [now apply reconcileChild_inv | |].
  - destruct (reconcileChild_cases b st s HI)
      as [Ht | type c l1 l2 Ht Hpool Hidc Hl2 | type Ht Hpool c]; simpl; try assumption.
    rewrite Ht in Hid. simpl in Hid.
    rewrite Hpool in Hx. apply in_app_or in Hx. apply in_or_app.
    destruct Hx as [Hx | [Hx | Hx]]; [now left | | now right].
    subst x. exfalso. apply Hid. now left.
  - destruct (getHandlerForState b s); [| assumption].
    intros H. apply Hid. now right.
Qed.

(** A state without a handler makes the assertion fail. *)
Lemma reconcileAll_asserts states :
  forall st childState,
    PassInv st ->
    In childState states ->
    getHandlerForState b childState = None ->
    passAsserted (reconcileAll b states st) = true.
Proof.
  induction states as [| s states IH]; intros st childState HI Hin Ht; [contradiction |].
  rewrite reconcileAll_cons. destruct Hin as [-> | Hin].
  - apply (reconcileAll_monotone states _ (reconcileChild_inv b st childState HI)).
    now rewrite (reconcileChild_skip b st childState Ht).
  - apply (IH _ childState); auto using reconcileChild_inv.
Qed.

End PassFacts.

(** C6.  A handler the builder gives for a child state is a registered
    handler of the type of the state.  Whenever the lookup of the ID of
    the state in the pool finds nothing, the loop body constructs a
    component through this handler at the free address, the parent
    gets it as a child, its ID is the value of the [id] property of the
    state, and it enters the ordered array and the created components;
    the pool is left as it is.  For a whole pass: when none of the
    existing children of the parent has the ID, such a component is
    among the children of the parent afterwards.  When no registered
    handler has the type of the state, the assertion fails, and no
    component is created. *)
Theorem updateChildComponents_creates b childState :
  (forall type,
      getHandlerForState b childState = Some type ->
      In type (types b)
      /\ valueTreeType type = getType childState
      /\ (forall st,
            (forall x, In x (childComponentList (passParent st)) ->
                       ptr x < passFreePtr st) ->
            fst (findComponentWithID_array (existingComponents st) (getStateId childState))
            = None ->
            reconcileChild b st childState
            = let c := mkComponent (passFreePtr st) (getProperty childState idProperty)
                                   (initialChildren type childState) in
              mkPass (setChildComponentList (passParent st)
                                            (childComponentList (passParent st) ++ [c]))
                     (existingComponents st) (componentsInOrder st ++ [c])
                     (S (passFreePtr st)) (passCreated st ++ [c])
                     (passAsserted st || negb (isNotEmpty (getStateId childState))))
      /\ (forall parent children,
            childrenAllocated b parent ->
            In childState (childStates children) ->
            ~ In (getStateId childState) (map getComponentID (childComponentList parent)) ->
            exists c,
              In c (resCreated (updateChildComponents b parent children))
              /\ In c (childComponentList (resParent (updateChildComponents b parent children)))
              /\ ptr (resParent (updateChildComponents b parent children)) = ptr parent
              /\ getComponentID c = getProperty childState idProperty
              /\ childComponentList c = initialChildren type childState
              /\ freePtr b <= ptr c))
  /\ (getHandlerForState b childState = None ->
      (forall h, In h (types b) -> valueTreeType h <> getType childState)
      /\ (forall st,
            passAsserted (reconcileChild b st childState) = true
            /\ passCreated (reconcileChild b st childState) = passCreated st
            /\ passParent (reconcileChild b st childState) = passParent st)
      /\ (forall parent children,
            childrenAllocated b parent ->
            In childState (childStates children) ->
            resAsserted (updateChildComponents b parent children) = true)).
Proof.
  pose proof (firstHandlerOfType_split (types b) (getType childState)) as Hsplit.
  fold (getHandlerForState b childState) in Hsplit.
  split.
  - intros type Ht. rewrite Ht in Hsplit.
    destruct Hsplit as [before [after [Hs1 [Hs2 _]]]].
    split; [rewrite Hs1; apply in_or_app; right; now left |].
    split; [exact Hs2 |].
    split.
    + intros st Hfresh Hf. now apply reconcileChild_create.
    + intros parent children HW Hin Hid.
      rewrite (updateChildComponents_children b parent children HW).
      rewrite updateChildComponents_unfold. cbv zeta. cbn [resCreated resInOrder resParent].
      pose proof (initial_inv b parent HW) as HI.
      destruct (reconcileAll_creates b (childStates children) _ childState type HI Hin Ht)
        as [c [C1 [C2 [C3 [C4 C5]]]]].
      * simpl. apply Forall_forall. intros x Hx E. apply Hid. rewrite <- E. now apply in_map.
      * exists c. repeat split; try assumption.
        cbn [setChildComponentList ptr].
        apply (reconcileAll_parent b _ _ HI).
  - intros Ht. rewrite Ht in Hsplit. split; [now apply Forall_forall |].
    split.
    + intros st. now rewrite (reconcileChild_skip b st childState Ht).
    + intros parent children HW Hin.
      rewrite updateChildComponents_unfold. cbv zeta. cbn [resAsserted].
      now apply (reconcileAll_asserts b _ _ childState (initial_inv b parent HW)).
Qed.

Lemma updateChildComponents_creates_witness :
  (valueTreeType buttonHandler = getType (getChild (state sceneBuilder) 0)
   /\ reconcileChild sceneBuilder (mkPass sceneRoot [compB; compA] [] 5 [] false)
                     (getChild (state sceneBuilder) 0)
      = mkPass (rootOf [compB; compA; mkComponent 5 "c" []]) [compB; compA]
               [mkComponent 5 "c" []] 6 [mkComponent 5 "c" []] false
   /\ exists c,
       In c (resCreated (updateChildComponents sceneBuilder sceneRoot (state sceneBuilder)))
       /\ In c (childComponentList
                  (resParent (updateChildComponents sceneBuilder sceneRoot (state sceneBuilder))))
       /\ ptr (resParent (updateChildComponents sceneBuilder sceneRoot (state sceneBuilder)))
          = ptr sceneRoot
       /\ getComponentID c = "c"
       /\ childComponentList c = []
       /\ 5 <= ptr c)
  /\ resAsserted (updateChildComponents mixedBuilder mixedRoot nodeRoot) = true.
Proof.
  split.
  - destruct (updateChildComponents_creates sceneBuilder (getChild (state sceneBuilder) 0))
      as [H _].
    destruct (H buttonHandler eq_refl) as [_ [H0 [H1 H2]]].
    split; [exact H0 |]. split.
    + apply (H1 (mkPass sceneRoot [compB; compA] [] 5 [] false)).
      * simpl. intros x [<- | [<- | []]]; simpl; lia.
      * reflexivity.
    + apply (H2 sceneRoot (state sceneBuilder)).
      * solve_allocated.
      * simpl. left. reflexivity.
      * simpl. intuition discriminate.
  - destruct (updateChildComponents_creates mixedBuilder nodeS) as [_ H].
    destruct (H eq_refl) as [_ [_ H3]].
    apply (H3 mixedRoot nodeRoot).
    + solve_allocated.
    + simpl. right. left. reflexivity.
Defined.

(** C10 as it is worded fails: a slider without handler and a button
    share the ID of an existing child; the slider is passed over, but
    the button claims the child, which is kept and not deleted. *)
Lemma skipped_state_child_claimed_by_sibling :
  getHandlerForState clashBuilder (getChild clashState 0) = None
  /\ getStateId (getChild clashState 0) = getComponentID compA
  /\ In compA (childComponentList clashRoot)
  /\ resDeleted (updateChildComponents clashBuilder clashRoot clashState) = []
  /\ childComponentList (resParent (updateChildComponents clashBuilder clashRoot clashState))
     = [compA]
  /\ resCreated (updateChildComponents clashBuilder clashRoot clashState) = [].
Proof. repeat split. simpl. left. reflexivity. Qed.

(** C10, amended.  A child state whose type has no registered handler
    is passed over: the debug assertion fails, the loop body leaves the pool, the
    ordered array, the created components and the parent as they are,
    and the ordered array of the pass holds components for the states
    with a handler only.  When no sibling state with a handler has its
    ID, no component with this ID is created, none is in the ordered
    array, and every existing child of the parent with this ID is left
    in the pool, deleted at the end of the pass and no longer among the
    children of the parent. *)
Theorem updateChildComponents_skips b parent children childState :
  childrenAllocated b parent ->
  In childState (childStates children) ->
  getHandlerForState b childState = None ->
  (forall st, reconcileChild b st childState
              = mkPass (passParent st) (existingComponents st) (componentsInOrder st)
                       (passFreePtr st) (passCreated st) true)
  /\ resAsserted (updateChildComponents b parent children) = true
  /\ map getComponentID (resInOrder (updateChildComponents b parent children))
     = map getStateId (filter (hasHandler b) (childStates children))
  /\ ((forall s, In s (childStates children) -> getHandlerForState b s <> None ->
                 getStateId s <> getStateId childState) ->
      ~ In (getStateId childState)
           (map getComponentID (resCreated (updateChildComponents b parent children)))
      /\ ~ In (getStateId childState)
              (map getComponentID (resInOrder (updateChildComponents b parent children)))
      /\ (forall x, In x (childComponentList parent) ->
                    getComponentID x = getStateId childState ->
                    In x (resDeleted (updateChildComponents b parent children))
                    /\ ~ In x (childComponentList
                                 (resParent (updateChildComponents b parent children))))).
Proof.
  intros HW Hin Ht.
  pose proof (initial_inv b parent HW) as HI.
  assert (Hids : map getComponentID (resInOrder (updateChildComponents b parent children))
                 = map getStateId (filter (hasHandler b) (childStates children))).
  { rewrite updateChildComponents_unfold. cbv zeta. cbn [resInOrder].
    now rewrite (reconcileAll_ids b _ _ HI). }
  split; [intros st; now apply reconcileChild_skip |].
  split.
  { rewrite updateChildComponents_unfold. cbv zeta. cbn [resAsserted].
    now apply (reconcileAll_asserts b _ _ childState HI). }
  split; [exact Hids |].
  intros Huniq.
  assert (Hnot : ~ In (getStateId childState)
                      (map getStateId (filter (hasHandler b) (childStates children)))).
  { intros H. apply in_map_iff in H. destruct H as [s [Hs1 Hs2]].
    apply filter_In in Hs2. destruct Hs2 as [Hs2 Hs3].
    apply (Huniq s Hs2); [| assumption].
    unfold hasHandler in Hs3. now destruct (getHandlerForState b s). }
  split.
  { rewrite updateChildComponents_unfold. cbv zeta. cbn [resCreated].
    intros H. apply in_map_iff in H. destruct H as [c [Hc1 Hc2]].
    destruct (reconcileAll_created_ids b _ _ c HI Hc2) as [[] | H].
    apply Hnot. now rewrite <- Hc1. }
  split; [now rewrite Hids |].
  intros x Hx Hxid. split.
  - rewrite updateChildComponents_unfold. cbv zeta. cbn [resDeleted].
    apply (reconcileAll_pool_keeps b _ _ x HI); [exact Hx | now rewrite Hxid].
  - rewrite (updateChildComponents_children b parent children HW).
    intros H. apply Hnot. rewrite <- Hids, <- Hxid. now apply in_map.
Qed.

Lemma updateChildComponents_skips_witness :
  resAsserted (updateChildComponents mixedBuilder mixedRoot nodeRoot) = true
  /\ map getComponentID (resInOrder (updateChildComponents mixedBuilder mixedRoot nodeRoot))
     = ["a"]
  /\ In compS (resDeleted (updateChildComponents mixedBuilder mixedRoot nodeRoot))
  /\ ~ In compS (childComponentList
                   (resParent (updateChildComponents mixedBuilder mixedRoot nodeRoot))).
Proof.
  destruct (updateChildComponents_skips mixedBuilder mixedRoot nodeRoot nodeS)
    as [_ [H1 [H2 H3]]].
  - solve_allocated.
  - simpl. right. left. reflexivity.
  - reflexivity.
  - split; [exact H1 |]. split; [exact H2 |].
    destruct H3 as [_ [_ H3]].
    + simpl. intros s [<- | [<- | []]] H; [discriminate | now elim H].
    + apply (H3 compS); [simpl; right; left; reflexivity | reflexivity].
Defined.

(** * Further properties of the code *)

(** ** The registry of handlers *)


(** X1.  [getHandlerForState] gives the first registered handler whose
    type is the type of the state: the handlers registered before it
    have other types.  It gives none only when no registered handler
    has this type. *)
Theorem getHandlerForState_first_match b s :
  match getHandlerForState b s with
  | Some t =>
      exists before after,
        types b = before ++ t :: after
        /\ valueTreeType t = getType s
        /\ Forall (fun h => valueTreeType h <> getType s) before
  | None => Forall (fun h => valueTreeType h <> getType s) (types b)
  end.
Proof. unfold getHandlerForState. apply firstHandlerOfType_split. Qed.

Lemma firstHandlerOfType_app ts t targetType :
  firstHandlerOfType (ts ++ [t]) targetType =
  match firstHandlerOfType ts targetType with
  | Some found => Some found
  | None => if String.eqb (valueTreeType t) targetType then Some t else None
  end.
Proof.
  induction ts as [| h ts IH]; simpl; [reflexivity |].
  now destruct (String.eqb (valueTreeType h) targetType).
Qed.

(** X2.  Registering a handler leaves every lookup that found a handler
    as it was; a state without handler gets the new one when the types
    agree.  The state, the root and the free address of the builder
    are not touched, and there is one handler more. *)
Theorem registerTypeHandler_lookup this b type s :
  getHandlerForState (fst (fst (registerTypeHandler this b type))) s =
  match getHandlerForState b s with
  | Some found => Some found
  | None =>
      if String.eqb (valueTreeType (handlerOf type)) (getType s)
      then Some (handlerOf type) else None
  end
  /\ getNumHandlers (fst (fst (registerTypeHandler this b type))) = S (getNumHandlers b)
  /\ state (fst (fst (registerTypeHandler this b type))) = state b
  /\ component (fst (fst (registerTypeHandler this b type))) = component b
  /\ freePtr (fst (fst (registerTypeHandler this b type))) = freePtr b.
Proof.
  unfold getHandlerForState, getNumHandlers. simpl.
  rewrite firstHandlerOfType_app, length_app. simpl.
  repeat split. lia.
Qed.


(** X4.  After a registration the handler is the last one of the
    builder, under the index that was the number of handlers; the
    handlers registered before keep their indices; the handler is bound
    to the builder, so that [getBuilder] gives the builder without a
    failed assertion.  The assertion of the registration fails exactly
    when the handler was bound already. *)
Theorem registerTypeHandler_getHandler this b type :
  getHandler (fst (fst (registerTypeHandler this b type))) (Z.of_nat (getNumHandlers b))
  = Some (handlerOf type)
  /\ (forall index, (index < Z.of_nat (getNumHandlers b))%Z ->
        getHandler (fst (fst (registerTypeHandler this b type))) index = getHandler b index)
  /\ getBuilder (snd (fst (registerTypeHandler this b type))) = (Some this, false)
  /\ (snd (registerTypeHandler this b type) = true <-> builderPtr type <> None).
Proof.
  unfold getHandler, getNumHandlers. simpl. rewrite length_app. simpl.
  repeat split.
  - replace (0 <=? Z.of_nat (length (types b)))%Z with true
      by (symmetry; apply Z.leb_le; lia).
    replace (Z.of_nat (length (types b)) <? Z.of_nat (length (types b) + 1))%Z with true
      by (symmetry; apply Z.ltb_lt; lia).
    simpl. rewrite Nat2Z.id, nth_error_app2 by lia.
    now rewrite Nat.sub_diag.
  - intros index Hi.
    destruct (0 <=? index)%Z eqn:E1; simpl; [| reflexivity].
    apply Z.leb_le in E1.
    replace (index <? Z.of_nat (length (types b) + 1))%Z with true
      by (symmetry; apply Z.ltb_lt; lia).
    replace (index <? Z.of_nat (length (types b)))%Z with true
      by (symmetry; apply Z.ltb_lt; lia).
    apply nth_error_app1. lia.
  - destruct (builderPtr type); [discriminate | congruence].
  - destruct (builderPtr type); [reflexivity | congruence].
Qed.

Lemma registerTypeHandler_getHandler_witness :
  getHandler (fst (fst (registerTypeHandler 7 lazyBuilder (mkHandlerObject sliderHandler None))))
             1
  = getHandler lazyBuilder 1.
Proof.
  destruct (registerTypeHandler_getHandler 7 lazyBuilder (mkHandlerObject sliderHandler None))
    as [_ [H _]].
  apply (H 1%Z). simpl. lia.
Defined.

(** ** The root *)

(** X5.  [getManagedComponent] caches: a second access gives what the
    first one gave and leaves the builder as the first one left it, so
    the root is constructed once at most. *)
Theorem getManagedComponent_cached b :
  getManagedComponent (snd (getManagedComponent b))
  = (fst (getManagedComponent b), snd (getManagedComponent b)).
Proof.
  unfold getManagedComponent at 2 3 4.
  destruct (component b) as [c |] eqn:Ec; simpl.
  - unfold getManagedComponent. now rewrite Ec.
  - unfold createComponent.
    destruct (getHandlerForState b (state b)) as [type |] eqn:Et; simpl.
    + reflexivity.
    + unfold getManagedComponent, createComponent. simpl.
      unfold getHandlerForState in *. simpl. now rewrite Et.
Qed.

(** X6.  When the root has not been constructed and the state of the
    builder has no handler, [createComponent] gives no component and
    its assertion fails; going on as a release build does, a
    notification then leaves the builder as it is, without root, and
    makes no call. *)
Theorem notification_without_root_handler b n :
  component b = None ->
  getHandlerForState b (state b) = None ->
  createComponent b = (None, freePtr b, true)
  /\ deliver b n = (b, []).
Proof.
  intros Hc Ht. split.
  - unfold createComponent. now rewrite Ht.
  - rewrite deliver_updateComponent, updateComponent_calls.
    unfold getManagedComponent, createComponent. rewrite Hc, Ht. simpl.
    destruct b. simpl in Hc. now subst.
Qed.

Lemma notification_without_root_handler_witness :
  createComponent emptyBuilder = (None, 1, true)
  /\ deliver emptyBuilder (ChildAdded nodeRoot nodeA) = (emptyBuilder, []).
Proof.
  apply (notification_without_root_handler emptyBuilder (ChildAdded nodeRoot nodeA));
    reflexivity.
Defined.

(** ** The searches *)




(** X7.  The search in the tree is sound and complete: a component it
    gives is a component of the tree (the root or a descendant) and has
    the ID; it gives none exactly when no component of the tree has the
    ID. *)
Theorem findComponentWithID_sound_complete c compId :
  (forall found, findComponentWithID c compId = Some found ->
                 In found (visitInChildOrder c) /\ getComponentID found = compId)
  /\ (findComponentWithID c compId = None <->
      forall x, In x (visitInChildOrder c) -> getComponentID x <> compId).
Proof.
  split.
  - intros found. apply findComponentWithID_some.
  - apply findComponentWithID_none.
Qed.

Lemma findComponentWithID_sound_complete_witness :
  In twinTop (visitInChildOrder twinRoot) /\ getComponentID twinTop = "x".
Proof.
  destruct (findComponentWithID_sound_complete twinRoot "x") as [H _].
  apply (H twinTop). reflexivity.
Defined.

(** X8.  The lookup in the pool takes one component out or none: what is
    found has the ID, and the pool that is left holds the other
    components, each as often as before; nothing is found exactly when
    no component of the pool has the ID, and then the pool is left as
    it is. *)
Theorem findComponentWithID_array_takes_one pool compId :
  match findComponentWithID_array pool compId with
  | (Some c, pool') =>
      getComponentID c = compId
      /\ Permutation pool (c :: pool')
      /\ length pool = S (length pool')
  | (None, pool') =>
      pool' = pool /\ ~ In compId (map getComponentID pool)
  end.
Proof.
  destruct (findComponentWithID_array pool compId) as [[c |] pool'] eqn:E.
  - apply findComponentWithID_array_found in E.
    destruct E as [l1 [l2 [-> [-> [H3 _]]]]].
    split; [assumption |]. split.
    + apply Permutation_sym, Permutation_middle.
    + rewrite !length_app. simpl. lia.
  - apply findComponentWithID_array_none in E. destruct E as [-> HF].
    split; [reflexivity |].
    rewrite Forall_forall in HF. intros H. apply in_map_iff in H.
    destruct H as [x [Hx1 Hx2]]. now apply HF in Hx2.
Qed.

(** ** The calls a notification makes *)

(** X9.  Every call of [updateComponentFromState] that a notification
    makes is made for the notified node or one of its ancestors; this
    node has a non-empty ID, the handler is the one the builder gives
    for the node, and the component is a component of the managed tree
    whose ID is the ID of the node. *)
Theorem updateComponent_call_sound b tree call :
  In call (snd (updateComponent b tree)) ->
  In (callState call) (ancestorsOrSelf tree)
  /\ getStateId (callState call) <> ""
  /\ getHandlerForState b (callState call) = Some (callType call)
  /\ getComponentID (callComponent call) = getStateId (callState call)
  /\ exists top, fst (getManagedComponent b) = Some top
                 /\ In (callComponent call) (visitInChildOrder top).
Proof.
  rewrite updateComponent_calls. cbn [snd].
  destruct (fst (getManagedComponent b)) as [top |]; [| contradiction].
  unfold updateCalls, resolveTarget.
  destruct (find (addressable b) (ancestorsOrSelf tree)) as [target |] eqn:Er;
    [| contradiction].
  apply find_some in Er. destruct Er as [Er1 Er2].
  unfold addressable, hasHandler, isNotEmpty in Er2.
  destruct (getHandlerForState b target) as [type |] eqn:Et; [| contradiction].
  destruct (findComponentWithID top (getStateId target)) as [c |] eqn:Ef;
    [| contradiction].
  intros [<- | []]. cbn [callState callType callComponent].
  destruct (findComponentWithID_some top (getStateId target) c Ef) as [Hin Hid].
  repeat split; try assumption.
  - simpl in Er2. apply negb_true_iff, String.eqb_neq in Er2. exact Er2.
  - exists top. auto.
Qed.

Lemma updateComponent_call_sound_witness :
  In nodeRoot (ancestorsOrSelf nodeS)
  /\ getStateId nodeRoot <> ""
  /\ getHandlerForState lazyBuilder nodeRoot = Some panelHandler
  /\ getComponentID bareRoot = getStateId nodeRoot
  /\ exists top, fst (getManagedComponent lazyBuilder) = Some top
                 /\ In bareRoot (visitInChildOrder top).
Proof.
  apply (updateComponent_call_sound lazyBuilder nodeS
           (mkUpdateCall panelHandler bareRoot nodeRoot)).
  simpl. left. reflexivity.
Defined.

(** ** More on the pass over the children *)

Section PassAccounts.

Variable b : ComponentBuilder.

(** The components the loop creates are appended to the children of the
    parent, at the free addresses one after the other. *)
Lemma reconcileAll_growth states :
  forall st,
    PassInv st ->
    exists new,
      passCreated (reconcileAll b states st) = passCreated st ++ new
      /\ childComponentList (passParent (reconcileAll b states st))
         = childComponentList (passParent st) ++ new
      /\ passFreePtr (reconcileAll b states st) = passFreePtr st + length new
      /\ map ptr new = seq (passFreePtr st) (length new).
Proof.
  induction states as [| s states IH]; intros st HI.
  - exists []. simpl. rewrite !app_nil_r. repeat split. lia.
  - rewrite reconcileAll_cons.
    destruct (IH _ (reconcileChild_inv b st s HI)) as [new [G1 [G2 [G3 G4]]]].
    rewrite G1, G2, G3.
    destruct (reconcileChild_cases b st s HI)
      as [Ht | type c l1 l2 Ht Hpool Hid Hl2 | type Ht Hpool c]; simpl in *.
    + exists new. auto.
    + exists new. auto.
    + exists (c :: new). rewrite <- !app_assoc. simpl.
      repeat split; [lia | now rewrite G4].
Qed.

Lemma reconcileAll_asserted states :
  forall st,
    PassInv st ->
    passAsserted (reconcileAll b states st)
    = passAsserted st || existsb (fun s => negb (addressable b s)) states.
Proof.
  induction states as [| s states IH]; intros st HI.
  - simpl. now rewrite orb_false_r.
  - rewrite reconcileAll_cons, IH by (now apply reconcileChild_inv).
    simpl. unfold addressable at 2, hasHandler.
    destruct (reconcileChild_cases b st s HI)
      as [Ht | type c l1 l2 Ht Hpool Hid Hl2 | type Ht Hpool c]; rewrite Ht; simpl.
    + now rewrite orb_true_r.
    + now rewrite orb_assoc.
    + now rewrite orb_assoc.
Qed.

Lemma NoDup_map_eq (l : list Component) x y :
  NoDup (map getComponentID l) -> In x l -> In y l ->
  getComponentID x = getComponentID y -> x = y.
Proof.
  induction l as [| z l IH]; simpl; intros HN Hx Hy E; [contradiction |].
  inversion HN as [| ? ? Hz Hl]; subst.
  destruct Hx as [-> | Hx], Hy as [-> | Hy]; auto.
  - exfalso. apply Hz. rewrite E. now apply in_map.
  - exfalso. apply Hz. rewrite <- E. now apply in_map.
Qed.

(** A component of the pool whose ID is the ID of a coming state with a
    handler ends in the ordered array, when the IDs of the pool differ
    from one another. *)
Lemma reconcileAll_keeps states :
  forall st x s,
    PassInv st ->
    NoDup (map getComponentID (existingComponents st)) ->
    In x (existingComponents st) ->
    In s states ->
    getHandlerForState b s <> None ->
    getStateId s = getComponentID x ->
    In x (componentsInOrder (reconcileAll b states st)).
Proof.
  induction states as [| s0 states IH]; intros st x s HI HN Hx Hs Ht Hid; [contradiction |].
  rewrite reconcileAll_cons.
  pose proof (reconcileChild_inv b st s0 HI) as HI1.
  destruct (reconcileAll_monotone b states _ HI1) as [_ [M2 _]].
  destruct (reconcileChild_cases b st s0 HI)
    as [Ht0 | type c l1 l2 Ht0 Hpool Hidc Hl2 | type Ht0 Hpool c].
  - destruct Hs as [-> | Hs]; [contradiction |].
    apply (IH _ x s); assumption.
  - assert (Hc : In c (existingComponents st)).
    { rewrite Hpool. apply in_or_app. right. now left. }
    destruct (String.eqb (getComponentID x) (getComponentID c)) eqn:E.
    + apply String.eqb_eq in E.
      assert (x = c) by (now apply (NoDup_map_eq (existingComponents st))).
      subst x. apply M2. simpl. apply in_or_app. right. now left.
    + apply String.eqb_neq in E.
      destruct Hs as [-> | Hs]; [congruence |].
      apply (IH _ x s); simpl; try assumption.
      * rewrite Hpool in HN. rewrite map_app in *. simpl in HN.
        now apply NoDup_remove_1 in HN.
      * rewrite Hpool in Hx. apply in_app_or in Hx. apply in_or_app.
        destruct Hx as [Hx | [Hx | Hx]]; [now left | congruence | now right].
  - destruct Hs as [-> | Hs].
    + exfalso. rewrite Forall_forall in Hpool. apply (Hpool x Hx). now symmetry.
    + apply (IH _ x s); assumption.
Qed.

End PassAccounts.

(** X10.  A pass loses no component and makes none twice: the children
    the parent had, together with the created components, are the
    deleted components together with the children the parent has
    afterwards, each once.  No component is both deleted and kept. *)
Theorem updateChildComponents_conserves b parent children :
  childrenAllocated b parent ->
  Permutation (childComponentList parent
               ++ resCreated (updateChildComponents b parent children))
              (resDeleted (updateChildComponents b parent children)
               ++ childComponentList (resParent (updateChildComponents b parent children)))
  /\ NoDup (ptrs (resDeleted (updateChildComponents b parent children)
                  ++ childComponentList
                       (resParent (updateChildComponents b parent children)))).
Proof.
  intros HW.
  rewrite (updateChildComponents_children b parent children HW).
  rewrite updateChildComponents_unfold. cbv zeta. cbn [resCreated resDeleted resInOrder].
  pose proof (initial_inv b parent HW) as HI.
  destruct (reconcileAll_inv b (childStates children) _ HI) as [Hperm Hnd _].
  destruct (reconcileAll_growth b (childStates children) _ HI) as [new [G1 [G2 _]]].
  simpl in G1, G2. rewrite G1. rewrite G2 in Hperm, Hnd.
  split; [exact Hperm |].
  now apply (NoDup_ptrs_perm _ _ Hperm).
Qed.

Lemma updateChildComponents_conserves_witness :
  Permutation (childComponentList sceneRoot
               ++ resCreated (updateChildComponents sceneBuilder sceneRoot (state sceneBuilder)))
              (resDeleted (updateChildComponents sceneBuilder sceneRoot (state sceneBuilder))
               ++ childComponentList
                    (resParent (updateChildComponents sceneBuilder sceneRoot
                                                      (state sceneBuilder))))
  /\ NoDup (ptrs (resDeleted (updateChildComponents sceneBuilder sceneRoot (state sceneBuilder))
                  ++ childComponentList
                       (resParent (updateChildComponents sceneBuilder sceneRoot
                                                         (state sceneBuilder))))).
Proof.
  apply (updateChildComponents_conserves sceneBuilder sceneRoot (state sceneBuilder)).
  solve_allocated.
Defined.

(** X11.  A pass for a state without children (the invalid tree is one)
    deletes every child of the parent: the parent is left without
    children, nothing is created or allocated and no assertion fails. *)
Theorem updateChildComponents_no_children b parent children :
  getNumChildren children = 0 ->
  updateChildComponents b parent children
  = mkResult (setChildComponentList parent []) [] [] (childComponentList parent)
             (freePtr b) false.
Proof.
  intros H0. rewrite updateChildComponents_unfold. unfold childStates. rewrite H0.
  cbv zeta. simpl. f_equal. f_equal.
  change (filter (outside (childComponentList parent)) (childComponentList parent) = []).
  apply filter_outside_incl, incl_refl.
Qed.

Lemma updateChildComponents_no_children_witness :
  updateChildComponents sceneBuilder sceneRoot invalid
  = mkResult (rootOf []) [] [] [compB; compA] 5 false.
Proof.
  apply (updateChildComponents_no_children sceneBuilder sceneRoot invalid).
  reflexivity.
Defined.


(** X13.  No debug assertion fails in a pass exactly when every child
    of the state has a registered handler and a non-empty ID. *)
Theorem updateChildComponents_asserts b parent children :
  childrenAllocated b parent ->
  (resAsserted (updateChildComponents b parent children) = false <->
   forall s, In s (childStates children) ->
             getHandlerForState b s <> None /\ getStateId s <> "").
Proof.
  intros HW.
  rewrite updateChildComponents_unfold. cbv zeta. cbn [resAsserted].
  rewrite (reconcileAll_asserted b _ _ (initial_inv b parent HW)). simpl.
  assert (Ha : forall s, addressable b s = true <->
                         getHandlerForState b s <> None /\ getStateId s <> "").
  { intros s. unfold addressable, hasHandler, isNotEmpty.
    rewrite andb_true_iff, negb_true_iff, String.eqb_neq.
    destruct (getHandlerForState b s); split; intros [H1 H2]; split;
      congruence. }
  split.
  - intros H s Hs. apply Ha.
    destruct (addressable b s) eqn:E; [reflexivity |].
    assert (Hex : existsb (fun s => negb (addressable b s)) (childStates children) = true).
    { apply existsb_exists. exists s. now rewrite E. }
    congruence.
  - intros H.
    destruct (existsb (fun s => negb (addressable b s)) (childStates children)) eqn:E;
      [| reflexivity].
    apply existsb_exists in E. destruct E as [s [Hs1 Hs2]].
    apply H, Ha in Hs1. now rewrite Hs1 in Hs2.
Qed.

Lemma updateChildComponents_asserts_witness :
  resAsserted (updateChildComponents mixedBuilder mixedRoot nodeRoot) = false <->
  forall s, In s (childStates nodeRoot) ->
            getHandlerForState mixedBuilder s <> None /\ getStateId s <> "".
Proof.
  apply (updateChildComponents_asserts mixedBuilder mixedRoot nodeRoot).
  solve_allocated.
Defined.

(** X14.  An existing child is used again, not made anew: when the IDs
    of the children of the parent differ from one another, a child
    whose ID is the ID of a child state with a handler is a child of
    the parent after the pass, the same object, and it is neither
    deleted nor among the created components. *)
Theorem updateChildComponents_keeps b parent children x s :
  childrenAllocated b parent ->
  NoDup (map getComponentID (childComponentList parent)) ->
  In x (childComponentList parent) ->
  In s (childStates children) ->
  getHandlerForState b s <> None ->
  getStateId s = getComponentID x ->
  In x (childComponentList (resParent (updateChildComponents b parent children)))
  /\ ~ In x (resDeleted (updateChildComponents b parent children))
  /\ ~ In x (resCreated (updateChildComponents b parent children)).
Proof.
  intros HW HN Hx Hs Ht Hid.
  rewrite (updateChildComponents_children b parent children HW).
  rewrite updateChildComponents_unfold. cbv zeta. cbn [resCreated resDeleted resInOrder].
  pose proof (initial_inv b parent HW) as HI.
  assert (Hord : In x (componentsInOrder
                         (reconcileAll b (childStates children)
                            (mkPass parent (childComponentList parent) [] (freePtr b) [] false)))).
  { apply (reconcileAll_keeps b _ _ x s HI); assumption. }
  split; [exact Hord |].
  destruct (reconcileAll_inv b (childStates children) _ HI) as [Hperm Hnd _].
  destruct (reconcileAll_growth b (childStates children) _ HI) as [new [G1 [_ [_ G4]]]].
  simpl in G1, G4. split.
  - intros Hdel.
    apply (NoDup_ptrs_perm _ _ Hperm) in Hnd. unfold ptrs in Hnd. rewrite map_app in Hnd.
    apply (NoDup_app_disjoint _ _ Hnd (ptr x)); now apply in_map.
  - rewrite G1. simpl. intros Hnew.
    apply (in_map ptr) in Hnew. rewrite G4 in Hnew. apply in_seq in Hnew.
    destruct HW as [_ HF]. apply HF in Hx. lia.
Qed.

Lemma updateChildComponents_keeps_witness :
  In compA (childComponentList
              (resParent (updateChildComponents sceneBuilder sceneRoot (state sceneBuilder))))
  /\ ~ In compA (resDeleted (updateChildComponents sceneBuilder sceneRoot (state sceneBuilder)))
  /\ ~ In compA (resCreated (updateChildComponents sceneBuilder sceneRoot (state sceneBuilder))).
Proof.
  apply (updateChildComponents_keeps sceneBuilder sceneRoot (state sceneBuilder) compA
           (getChild (state sceneBuilder) 1)).
  - solve_allocated.
  - repeat constructor; simpl; intuition discriminate.
  - simpl. right. left. reflexivity.
  - simpl. right. left. reflexivity.
  - discriminate.
  - reflexivity.
Defined.

(** X15.  Whatever handlers are missing, the children of the parent
    after a pass mirror the child states that have a handler: their IDs
    are the IDs of these states, in the order of the states, and there
    are as many children as such states. *)
Theorem updateChildComponents_mirrors_handled b parent children :
  childrenAllocated b parent ->
  map getComponentID (childComponentList (resParent (updateChildComponents b parent children)))
  = map getStateId (filter (hasHandler b) (childStates children))
  /\ length (childComponentList (resParent (updateChildComponents b parent children)))
     = length (filter (hasHandler b) (childStates children)).
Proof.
  intros HW.
  assert (E : map getComponentID
                (childComponentList (resParent (updateChildComponents b parent children)))
              = map getStateId (filter (hasHandler b) (childStates children))).
  { rewrite (updateChildComponents_children b parent children HW).
    rewrite updateChildComponents_unfold. cbv zeta. cbn [resInOrder].
    now rewrite (reconcileAll_ids b _ _ (initial_inv b parent HW)). }
  split; [exact E |].
  apply (f_equal (@length string)) in E. now rewrite !length_map in E.
Qed.

Lemma updateChildComponents_mirrors_handled_witness :
  map getComponentID
      (childComponentList (resParent (updateChildComponents mixedBuilder mixedRoot nodeRoot)))
  = ["a"]
  /\ length (childComponentList (resParent (updateChildComponents mixedBuilder mixedRoot nodeRoot)))
     = 1.
Proof.
  apply (updateChildComponents_mirrors_handled mixedBuilder mixedRoot nodeRoot).
  solve_allocated.
Defined.

(** X16.  A pass keeps the heap in order for the next one: afterwards
    the children of the parent are again distinct objects that lie
    below the free address, and the created components, which did not
    exist before, are among them. *)
Theorem updateChildComponents_stays_allocated b parent children :
  childrenAllocated b parent ->
  childrenAllocated (afterPass b (updateChildComponents b parent children))
                    (resParent (updateChildComponents b parent children))
  /\ incl (resCreated (updateChildComponents b parent children))
          (childComponentList (resParent (updateChildComponents b parent children)))
  /\ (forall c, In c (resCreated (updateChildComponents b parent children)) ->
                ~ In (ptr c) (ptrs (childComponentList parent))).
Proof.
  intros HW. split; [now apply updateChildComponents_allocated |].
  pose proof (initial_inv b parent HW) as HI.
  destruct (reconcileAll_growth b (childStates children) _ HI) as [new [G1 [_ [_ G4]]]].
  simpl in G1, G4. split.
  - rewrite (updateChildComponents_children b parent children HW).
    rewrite updateChildComponents_unfold. cbv zeta. cbn [resCreated resInOrder].
    intros c Hc.
    destruct (reconcileAll_inv b (childStates children) _ HI) as [Hperm Hnd _].
    destruct (reconcileAll_growth b (childStates children) _ HI) as [new' [G1' [G2' _]]].
    simpl in G1', G2'. rewrite G1' in Hc. simpl in Hc.
    assert (Hin : In c (childComponentList
                          (passParent (reconcileAll b (childStates children)
                             (mkPass parent (childComponentList parent) [] (freePtr b) [] false))))).
    { rewrite G2'. apply in_or_app. now right. }
    apply (Permutation_in _ Hperm) in Hin. apply in_app_or in Hin.
    destruct Hin as [Hin | Hin]; [| exact Hin].
    exfalso.
    destruct (reconcileAll_monotone b (childStates children) _ HI) as [_ [_ [M3 _]]].
    apply M3 in Hin. simpl in Hin.
    rewrite G2' in Hnd. unfold ptrs in Hnd. rewrite map_app in Hnd.
    apply (NoDup_app_disjoint _ _ Hnd (ptr c)); now apply in_map.
  - rewrite updateChildComponents_unfold. cbv zeta. cbn [resCreated].
    rewrite G1. simpl. intros c Hc Hold.
    apply (in_map ptr) in Hc. rewrite G4 in Hc. apply in_seq in Hc.
    unfold ptrs in Hold. apply in_map_iff in Hold. destruct Hold as [y [Hy1 Hy2]].
    destruct HW as [_ HF]. apply HF in Hy2. lia.
Qed.

Lemma updateChildComponents_stays_allocated_witness :
  childrenAllocated
    (afterPass sceneBuilder (updateChildComponents sceneBuilder sceneRoot (state sceneBuilder)))
    (resParent (updateChildComponents sceneBuilder sceneRoot (state sceneBuilder)))
  /\ incl (resCreated (updateChildComponents sceneBuilder sceneRoot (state sceneBuilder)))
          (childComponentList
             (resParent (updateChildComponents sceneBuilder sceneRoot (state sceneBuilder))))
  /\ (forall c, In c (resCreated (updateChildComponents sceneBuilder sceneRoot
                                                        (state sceneBuilder))) ->
                ~ In (ptr c) (ptrs (childComponentList sceneRoot))).
Proof.
  apply (updateChildComponents_stays_allocated sceneBuilder sceneRoot (state sceneBuilder)).
  solve_allocated.
Defined.
